(** * Aviator crash game server (src/main.py): a shallow embedding

    The server keeps its state in module-level globals ([bets],
    [current_multiplier], [crash_multiplier], [round_active],
    [accepting_bets]) and in two database tables ([users],
    [processed_transactions]).  Here the whole state is one record; each
    HTTP handler is a function from state to state and response, and the
    [round_loop] coroutine is a step function whose steps are the code
    between two of its [await]s.  Python floats are modelled as exact
    rationals [Q]; Python's [round(x, 2)] is [round2] (round half to even
    at two decimals).  Each handler body is modelled as one atomic step.

    Every step also returns a list of [event]s.  They are bookkeeping
    annotations only, placed at the lines where the code writes a balance
    or the bet registry, so that properties about settlement and credits
    can be stated. *)

From stdpp Require Import base gmap sets list strings.
From Stdlib Require Import QArith Lqa ZArith.

Open Scope Q_scope.

(** ** Numbers *)

(** Python's [round(x, 2)]: round half to even at two decimals. *)
Definition round2 (x : Q) : Q :=
  let a := (100 * Qnum x)%Z in
  let b := Zpos (Qden x) in
  let f := (a / b)%Z in
  let r := (a mod b)%Z in
  let k := match Z.compare (2 * r) b with
           | Lt => f
           | Gt => (f + 1)%Z
           | Eq => if Z.even f then f else (f + 1)%Z
           end in
  Qmake k 100.

(** Python's [x < y] on floats. *)
Definition Qltb (x y : Q) : bool := negb (Qle_bool y x).

(** ** Data model *)

(** An entry of the [bets] dict: [{"amount": ..., "auto_cashout": None}]. *)
Record bet_entry := mkBet {
  amount : Q;
  auto_cashout : option Q
}.

(** Program counter of [round_loop]: the point where the coroutine is
    suspended. *)
Inductive engine_pc :=
  | PTop       (* before line 178: loop head (initially, and during sleep(2)) *)
  | PBetting   (* lines 179-180: betting window, accepting_bets = True *)
  | PFlight    (* lines 187-192: inside the flight loop *)
  | PCrashed.  (* line 196: crash broadcast, bets not yet cleared *)

Record state := mkState {
  users : gmap Z Q;               (* table users: user_id -> balance *)
  processed : gmap string Z;      (* table processed_transactions: tx_hash -> user_id *)
  bets : gmap Z bet_entry;        (* global bets *)
  current_multiplier : Q;
  crash_multiplier : Q;
  round_active : bool;
  accepting_bets : bool;
  pc : engine_pc
}.

Definition set_users (s : state) (m : gmap Z Q) : state :=
  mkState m (processed s) (bets s) (current_multiplier s) (crash_multiplier s)
    (round_active s) (accepting_bets s) (pc s).

Definition set_bets (s : state) (m : gmap Z bet_entry) : state :=
  mkState (users s) (processed s) m (current_multiplier s) (crash_multiplier s)
    (round_active s) (accepting_bets s) (pc s).

(** The globals at import time (lines 53-58); the tables hold whatever
    earlier runs persisted. *)
Definition init_state (us : gmap Z Q) (pr : gmap string Z) : state :=
  mkState us pr ∅ 1 2 false false PTop.

(** Responses of the handlers (the Kazakh messages are named by their
    meaning). *)
Inductive error_kind :=
  | ErrBetsClosed      (* "Қазір ставка қабылданбайды" *)
  | ErrNoFunds         (* "Жеткілікті баланс жоқ" *)
  | ErrUserNotFound    (* "Пайдаланушы табылмады" *)
  | ErrBetNotFound.    (* "Ставка табылмады" *)

Inductive response :=
  | RBalance (b : Q)
  | RToppedUp
  | RBetAccepted
  | RCashout (shown_win : Q)
  | RChecked
  | RError (e : error_kind)
  | REngine.

(** Bookkeeping annotations. *)
Inductive event :=
  | EvDelta (u : Z) (d : Q)              (* a balance of user u changed by d *)
  | EvPlaced (u : Z) (a : Q)             (* bets[u] written *)
  | EvCashedOut (u : Z) (a : Q)          (* bets[u] deleted by cashout *)
  | EvForfeited (u : Z) (a : Q)          (* bets[u] cleared by the crash *)
  | EvCredited (h : string) (u : Z) (a : Q).  (* external tx h credited *)

(** ** Handlers *)

(** [get_balance] (lines 61-66). *)
Definition get_balance (s : state) (u : Z) : state * response * list event :=
  (s, RBalance (match users s !! u with
                | Some b => round2 b
                | None => 0
                end), []).

(** [topup_balance] (lines 68-79). *)
Definition topup_balance (s : state) (u : Z) (a : Q)
    : state * response * list event :=
  match users s !! u with
  | Some b => (set_users s (<[u := b + a]> (users s)), RToppedUp, [EvDelta u a])
  | None => (set_users s (<[u := a]> (users s)), RToppedUp, [EvDelta u a])
  end.

(** [place_bet] (lines 81-94). *)
Definition place_bet (s : state) (u : Z) (a : Q)
    : state * response * list event :=
  if negb (accepting_bets s) then (s, RError ErrBetsClosed, [])
  else match users s !! u with
       | None => (s, RError ErrNoFunds, [])
       | Some b =>
           if Qltb b a then (s, RError ErrNoFunds, [])
           else (set_bets (set_users s (<[u := b - a]> (users s)))
                   (<[u := mkBet a None]> (bets s)),
                 RBetAccepted, [EvDelta u (- a); EvPlaced u a])
       end.

(** [cashout] (lines 96-109). *)
Definition cashout (s : state) (u : Z) : state * response * list event :=
  match bets s !! u with
  | None => (s, RError ErrBetNotFound, [])
  | Some e =>
      match users s !! u with
      | None => (s, RError ErrUserNotFound, [])
      | Some b =>
          let win := amount e * current_multiplier s in
          (set_bets (set_users s (<[u := b + win]> (users s))) (delete u (bets s)),
           RCashout (round2 win), [EvDelta u win; EvCashedOut u (amount e)])
      end
  end.

(** ** Reconciliation ([check_transactions], lines 111-160) *)

(** The [in_msg] part of a TON transaction: [msg.get("comment")] and
    [int(msg.get("value", 0))]. *)
Record in_msg := mkMsg {
  comment : option string;
  value : Z
}.

Record tx := mkTx {
  tx_hash : string;
  msg_of : option in_msg
}.

(** [s.replace(pat, "")] for a non-empty [pat]: every non-overlapping
    occurrence, scanning left to right, is removed.  [skip] counts the
    characters of a match still to drop. *)
Fixpoint remove_all_aux (pat : string) (skip : nat) (s : string) : string :=
  match s with
  | EmptyString => EmptyString
  | String c s' =>
      match skip with
      | S k => remove_all_aux pat k s'
      | O => if String.prefix pat s
             then remove_all_aux pat (String.length pat - 1) s'
             else String c (remove_all_aux pat O s')
      end
  end.

Definition remove_all (pat s : string) : string := remove_all_aux pat O s.

(** The TON amount: [int(value) / 1e9] (nanoTON to TON). *)
Definition ton_amount (v : Z) : Q := inject_Z v / inject_Z (10 ^ 9).

Section Server.

(** Python's [int(str)], which may raise ([None]). *)
Variable py_int : string -> option Z.

(** The body of the [for tx in txs] loop (lines 125-158).  Each [continue]
    leaves the state as it is. *)
Definition process_tx (s : state) (t : tx) : state * list event :=
  match msg_of t with
  | None => (s, [])
  | Some m =>
      match comment m with
      | None => (s, [])
      | Some c =>
          if String.eqb c "" then (s, [])
          else if negb (String.prefix "user_" c) then (s, [])
          else match py_int (remove_all "user_" c) with
               | None => (s, [])
               | Some uid =>
                   let a := ton_amount (value m) in
                   match processed s !! tx_hash t with
                   | Some _ => (s, [])
                   | None =>
                       let us := match users s !! uid with
                                 | Some b => <[uid := b + a]> (users s)
                                 | None => <[uid := a]> (users s)
                                 end in
                       (mkState us (<[tx_hash t := uid]> (processed s)) (bets s)
                          (current_multiplier s) (crash_multiplier s)
                          (round_active s) (accepting_bets s) (pc s),
                        [EvDelta uid a; EvCredited (tx_hash t) uid a])
                   end
               end
      end
  end.

Fixpoint process_txs (s : state) (txs : list tx) : state * list event :=
  match txs with
  | [] => (s, [])
  | t :: rest =>
      let '(s1, ev1) := process_tx s t in
      let '(s2, ev2) := process_txs s1 rest in
      (s2, ev1 ++ ev2)
  end.

Definition check_transactions (s : state) (txs : list tx)
    : state * response * list event :=
  let '(s', ev) := process_txs s txs in (s', RChecked, ev).

(** ** The round engine ([round_loop], lines 174-198)

    One step runs the code from one suspension point to the next.  [sample]
    is the value [random.uniform(1.5, 3.0)] returns when the step draws
    one (only from [PBetting]). *)
Definition forfeit_events (m : gmap Z bet_entry) : list event :=
  map (fun kv => EvForfeited kv.1 (amount kv.2)) (map_to_list m).

Definition engine_step (sample : Q) (s : state) : state * response * list event :=
  match pc s with
  | PTop =>
      (* line 178 *)
      (mkState (users s) (processed s) (bets s) (current_multiplier s)
         (crash_multiplier s) (round_active s) true PBetting, REngine, [])
  | PBetting =>
      (* lines 181-187 *)
      (mkState (users s) (processed s) (bets s) 1 (round2 sample)
         true false PFlight, REngine, [])
  | PFlight =>
      if Qltb (current_multiplier s) (crash_multiplier s) then
        (* lines 189-192 *)
        (mkState (users s) (processed s) (bets s)
           (round2 (current_multiplier s + (1 # 100))) (crash_multiplier s)
           (round_active s) (accepting_bets s) PFlight, REngine, [])
      else
        (* lines 195-196 *)
        (mkState (users s) (processed s) (bets s) (current_multiplier s)
           (crash_multiplier s) false (accepting_bets s) PCrashed, REngine, [])
  | PCrashed =>
      (* lines 197-198 *)
      (mkState (users s) (processed s) ∅ (current_multiplier s)
         (crash_multiplier s) (round_active s) (accepting_bets s) PTop,
       REngine, forfeit_events (bets s))
  end.

(** ** The whole server *)

Inductive action :=
  | AGetBalance (u : Z)
  | ATopup (u : Z) (a : Q)
  | APlaceBet (u : Z) (a : Q)
  | ACashout (u : Z)
  | ACheck (txs : list tx)
  | AEngine (sample : Q).

Definition step (s : state) (act : action) : state * response * list event :=
  match act with
  | AGetBalance u => get_balance s u
  | ATopup u a => topup_balance s u a
  | APlaceBet u a => place_bet s u a
  | ACashout u => cashout s u
  | ACheck txs => check_transactions s txs
  | AEngine x => engine_step x s
  end.

Fixpoint run (s : state) (acts : list action) : state * list event :=
  match acts with
  | [] => (s, [])
  | a :: rest =>
      let '(s1, _, ev1) := step s a in
      let '(s2, ev2) := run s1 rest in
      (s2, ev1 ++ ev2)
  end.

End Server.

(** A digits-only reading of [int(str)], used for concrete runs. *)
Fixpoint digits_value (acc : Z) (s : string) : option Z :=
  match s with
  | EmptyString => Some acc
  | String c s' =>
      let n := Z.of_nat (Ascii.nat_of_ascii c) in
      if ((48 <=? n) && (n <=? 57))%Z
      then digits_value (10 * acc + (n - 48))%Z s'
      else None
  end.

Definition decimal_int (s : string) : option Z :=
  match s with
  | EmptyString => None
  | _ => digits_value 0 s
  end.

(** ** Round phase

    The spec's phase of the round, read off the two flags of the code:
    Waiting while [accepting_bets], Flight while [round_active], Crashed
    otherwise. *)
Inductive phase_kind := Waiting | Flight | Crashed.

Definition phase (s : state) : phase_kind :=
  if accepting_bets s then Waiting
  else if round_active s then Flight
  else Crashed.

Definition next_phase (p : phase_kind) : phase_kind :=
  match p with
  | Waiting => Flight
  | Flight => Crashed
  | Crashed => Waiting
  end.

(** ** Facts about [round2] and [Qltb] *)

Lemma round2_lower (x : Q) : x - (1 # 200) <= round2 x.
Proof.
  destruct x as [n d]. unfold round2, Qle, Qminus, Qplus, Qopp; simpl.
  pose proof (Z.div_mod (100 * n) (Zpos d) ltac:(lia)).
  pose proof (Z.mod_pos_bound (100 * n) (Zpos d) ltac:(lia)).
  destruct (Z.compare_spec (2 * ((100 * n) mod Zpos d)) (Zpos d));
    [destruct (Z.even _)|..]; simpl; nia.
Qed.

Lemma round2_upper (x : Q) : round2 x <= x + (1 # 200).
Proof.
  destruct x as [n d]. unfold round2, Qle, Qplus; simpl.
  pose proof (Z.div_mod (100 * n) (Zpos d) ltac:(lia)).
  pose proof (Z.mod_pos_bound (100 * n) (Zpos d) ltac:(lia)).
  destruct (Z.compare_spec (2 * ((100 * n) mod Zpos d)) (Zpos d));
    [destruct (Z.even _)|..]; simpl; nia.
Qed.

(** [round2] always yields a whole number of hundredths. *)
Lemma round2_hundredths (x : Q) : exists k : Z, round2 x = Qmake k 100.
Proof. unfold round2. eexists. reflexivity. Qed.

Lemma Qltb_spec (x y : Q) : Qltb x y = true <-> x < y.
Proof.
  unfold Qltb. rewrite negb_true_iff.
  split; intro H.
  - apply Qnot_le_lt. intro H'. apply Qle_bool_iff in H'. congruence.
  - destruct (Qle_bool y x) eqn:E; [|reflexivity].
    apply Qle_bool_iff in E. exfalso. apply (Qlt_not_le x y); assumption.
Qed.

Lemma Qltb_false (x y : Q) : Qltb x y = false <-> y <= x.
Proof.
  unfold Qltb. rewrite negb_false_iff. apply Qle_bool_iff.
Qed.

(** ** Claims about single handlers *)

(** C3: [place_bet] while the round is not in its Waiting phase (bets not
    accepted) returns the "bets are not accepted now" error and leaves the
    whole state, balances and bet registry included, unchanged. *)
Theorem place_bet_outside_waiting_rejected (s : state) (u : Z) (a : Q) :
  phase s <> Waiting -> place_bet s u a = (s, RError ErrBetsClosed, []).
Proof.
  unfold phase, place_bet. destruct (accepting_bets s); simpl.
  - intro H. congruence.
  - intros _. reflexivity.
Qed.

(** C5: a cashout of a user who holds a bet [e] and has balance [b] reports
    the payout [amount e * current_multiplier] (rounded for display),
    stores the balance [b + amount e * current_multiplier] and deletes the
    user's bet; no other balance or bet changes. *)
Theorem cashout_pays_amount_times_multiplier (s : state) (u : Z)
    (e : bet_entry) (b : Q) :
  bets s !! u = Some e -> users s !! u = Some b ->
  let win := amount e * current_multiplier s in
  let '(s', r, _) := cashout s u in
  r = RCashout (round2 win) /\
  users s' !! u = Some (b + win) /\
  bets s' !! u = None /\
  (forall v, v <> u -> users s' !! v = users s !! v /\ bets s' !! v = bets s !! v).
Proof.
  intros Hb Hu win. unfold cashout. rewrite Hb, Hu. simpl.
  split; [reflexivity|]. split; [by rewrite lookup_insert_eq|].
  split; [by rewrite lookup_delete_eq|].
  intros v Hv. split.
  - by rewrite lookup_insert_ne by congruence.
  - by rewrite lookup_delete_ne by congruence.
Qed.

(** C10: rounding happens only in what is reported.  [get_balance] reports
    the stored balance rounded to two decimals (0 for an unknown user);
    [topup_balance], [place_bet] and [cashout] store unrounded sums; and
    [cashout] stores the unrounded [amount * current_multiplier] while it
    reports that product rounded to two decimals. *)
Theorem rounding_only_when_reported :
  (forall (s : state) (u : Z),
     get_balance s u =
       (s, RBalance (match users s !! u with Some b => round2 b | None => 0 end), [])) /\
  (forall (s : state) (u : Z) (a b : Q), users s !! u = Some b ->
     users (topup_balance s u a).1.1 !! u = Some (b + a)) /\
  (forall (s : state) (u : Z) (a b : Q), users s !! u = Some b ->
     (place_bet s u a).1.2 = RBetAccepted ->
     users (place_bet s u a).1.1 !! u = Some (b - a)) /\
  (forall (s : state) (u : Z) (e : bet_entry) (b : Q),
     bets s !! u = Some e -> users s !! u = Some b ->
     users (cashout s u).1.1 !! u = Some (b + amount e * current_multiplier s) /\
     (cashout s u).1.2 = RCashout (round2 (amount e * current_multiplier s))).
Proof.
  split; [reflexivity|]. split.
  { intros s u a b Hu. unfold topup_balance. rewrite Hu. simpl.
    by rewrite lookup_insert_eq. }
  split.
  { intros s u a b Hu. unfold place_bet. rewrite Hu.
    destruct (accepting_bets s); simpl; [|discriminate].
    destruct (Qltb b a); simpl; [discriminate|].
    intros _. by rewrite lookup_insert_eq. }
  intros s u e b He Hu. unfold cashout. rewrite He, Hu. simpl.
  split; [by rewrite lookup_insert_eq | reflexivity].
Qed.

(** A betting-window state in which user 7 already holds a bet of 10 and
    has 90 left. *)
Definition waiting_with_bet : state :=
  mkState {[7%Z := 90]} ∅ {[7%Z := mkBet 10 None]} 1 2 false true PBetting.

(** C4 (as stated): a second [place_bet] by a user who holds a bet is
    rejected without debiting.  It is not: the second bet of 20 is accepted,
    the balance drops from 90 to 70 and the recorded bet becomes 20. *)
Lemma second_bet_overwrites_first :
  (place_bet waiting_with_bet 7 20).1.2 = RBetAccepted /\
  users (place_bet waiting_with_bet 7 20).1.1 !! 7%Z = Some (90 - 20) /\
  bets (place_bet waiting_with_bet 7 20).1.1 !! 7%Z = Some (mkBet 20 None).
Proof. vm_compute. repeat split. Qed.

(** C4 (amended): there is no duplicate check.  While bets are accepted, a
    [place_bet] by a user who already holds a bet and whose balance [b]
    covers the amount [a] succeeds: the balance becomes [b - a] and the
    recorded bet is replaced by [a]; the earlier stake is not refunded. *)
Theorem place_bet_replaces_active_bet (s : state) (u : Z) (a b : Q)
    (e : bet_entry) :
  accepting_bets s = true -> bets s !! u = Some e ->
  users s !! u = Some b -> a <= b ->
  let '(s', r, _) := place_bet s u a in
  r = RBetAccepted /\ users s' !! u = Some (b - a) /\
  bets s' !! u = Some (mkBet a None).
Proof.
  intros Hacc _ Hu Hab. unfold place_bet. rewrite Hacc, Hu. simpl.
  assert (Qltb b a = false) as -> by (apply Qltb_false; exact Hab).
  simpl. split; [reflexivity|].
  split; by rewrite lookup_insert_eq.
Qed.

(** A betting-window state in which user 7 has balance 0 and no bet. *)
Definition waiting_zero_balance : state :=
  mkState {[7%Z := 0]} ∅ ∅ 1 2 false true PBetting.

(** C9 (as stated): a bet with amount <= 0 fails and changes nothing.  It
    does not: a bet of -10 with balance 0 is accepted, the balance becomes
    0 - (-10) = 10 and a bet of -10 is recorded. *)
Lemma nonpositive_bet_accepted :
  (place_bet waiting_zero_balance 7 (-10)).1.2 = RBetAccepted /\
  users (place_bet waiting_zero_balance 7 (-10)).1.1 !! 7%Z = Some (0 - -10) /\
  bets (place_bet waiting_zero_balance 7 (-10)).1.1 !! 7%Z = Some (mkBet (-10) None).
Proof. vm_compute. repeat split. Qed.

(** C9 (amended): [place_bet] has no check on the sign of the amount.  While
    bets are accepted, for an amount [a <= 0] it fails (with the
    insufficient-funds error, changing nothing) only when the user is
    unknown or its balance is below [a]; otherwise it succeeds, storing
    [b - a] (at least [b]) and recording a bet of [a]. *)
Theorem place_bet_nonpositive_amount (s : state) (u : Z) (a : Q) :
  accepting_bets s = true -> a <= 0 ->
  match users s !! u with
  | Some b =>
      a <= b ->
      let '(s', r, _) := place_bet s u a in
      r = RBetAccepted /\ users s' !! u = Some (b - a) /\ b <= b - a /\
      bets s' !! u = Some (mkBet a None)
  | None => place_bet s u a = (s, RError ErrNoFunds, [])
  end /\
  (forall b, users s !! u = Some b -> b < a ->
     place_bet s u a = (s, RError ErrNoFunds, [])).
Proof.
  intros Hacc Ha. unfold place_bet. rewrite Hacc. simpl. split.
  - destruct (users s !! u) as [b|] eqn:Hu; [|reflexivity].
    intros Hab.
    assert (Qltb b a = false) as -> by (apply Qltb_false; exact Hab).
    simpl. split; [reflexivity|]. split; [by rewrite lookup_insert_eq|].
    split; [lra| by rewrite lookup_insert_eq].
  - intros b Hu Hba. rewrite Hu.
    assert (Qltb b a = true) as -> by (apply Qltb_spec; exact Hba).
    reflexivity.
Qed.

(** ** Cashout outside the Flight phase *)

(** Betting window of the first round: user 7 (balance 100) bet 10. *)
Definition first_round_bet : state :=
  (run decimal_int (init_state {[7%Z := 100]} ∅) [AEngine 0; APlaceBet 7 10]).1.

(** Same round after flying to its crash point 2 and executing line 195:
    the crash is broadcast but [bets.clear()] has not run yet. *)
Definition first_round_crashed : state :=
  (run decimal_int first_round_bet (AEngine 2 :: repeat (AEngine 0) 101)).1.

(** C1: the code of [cashout] never reads the phase.  In the Waiting phase
    a cashout of the bet of 10 credits 10 * 1 (the multiplier left from
    before) and removes the bet; in the Crashed phase, before the registry
    is cleared, it credits 10 * 2. *)
Theorem cashout_outside_flight_credits :
  phase first_round_bet = Waiting /\
  (exists w, (cashout first_round_bet 7).1.2 = RCashout w /\ w == 10) /\
  (exists b, users (cashout first_round_bet 7).1.1 !! 7%Z = Some b /\ b == 90 + 10) /\
  bets (cashout first_round_bet 7).1.1 !! 7%Z = None /\
  phase first_round_crashed = Crashed /\
  (exists w, (cashout first_round_crashed 7).1.2 = RCashout w /\ w == 20) /\
  (exists b, users (cashout first_round_crashed 7).1.1 !! 7%Z = Some b /\ b == 90 + 20) /\
  bets (cashout first_round_crashed 7).1.1 !! 7%Z = None.
Proof.
  vm_compute.
  repeat split; try reflexivity; eexists; split; try reflexivity; vm_compute; reflexivity.
Qed.

(** ** The engine is the only writer of the round fields *)

Definition engine_view (s : state) : Q * Q * bool * bool * engine_pc :=
  (current_multiplier s, crash_multiplier s, round_active s, accepting_bets s, pc s).

Definition is_engine (act : action) : bool :=
  match act with AEngine _ => true | _ => false end.

Lemma process_tx_fields (py_int : string -> option Z) (s : state) (t : tx) :
  engine_view (process_tx py_int s t).1 = engine_view s /\
  bets (process_tx py_int s t).1 = bets s.
Proof. unfold process_tx. repeat case_match; simpl; auto. Qed.

Lemma process_txs_fields (py_int : string -> option Z) (txs : list tx) :
  forall s : state,
  engine_view (process_txs py_int s txs).1 = engine_view s /\
  bets (process_txs py_int s txs).1 = bets s.
Proof.
  induction txs as [|t rest IH]; intros s; simpl; [auto|].
  destruct (process_tx py_int s t) as [s1 ev1] eqn:E1.
  destruct (process_txs py_int s1 rest) as [s2 ev2] eqn:E2. simpl.
  pose proof (process_tx_fields py_int s t) as [H1 H2]. rewrite E1 in H1, H2.
  specialize (IH s1). rewrite E2 in IH. destruct IH as [H3 H4]. simpl in *.
  split; congruence.
Qed.

Lemma handler_engine_view (py_int : string -> option Z) (s : state) (act : action) :
  is_engine act = false ->
  engine_view (step py_int s act).1.1 = engine_view s.
Proof.
  destruct act; simpl; try discriminate; intros _.
  - reflexivity.
  - unfold topup_balance. case_match; reflexivity.
  - unfold place_bet. repeat case_match; reflexivity.
  - unfold cashout. repeat case_match; reflexivity.
  - unfold check_transactions.
    pose proof (process_txs_fields py_int txs s) as [H _].
    destruct (process_txs py_int s txs). exact H.
Qed.

(** ** Reachable states *)

Definition reachable (py_int : string -> option Z) (s : state) : Prop :=
  exists us pr acts, s = (run py_int (init_state us pr) acts).1.

(** The two flags agree with the point where [round_loop] is suspended. *)
Definition flags_wf (s : state) : Prop :=
  match pc s with
  | PTop | PCrashed => accepting_bets s = false /\ round_active s = false
  | PBetting => accepting_bets s = true /\ round_active s = false
  | PFlight => accepting_bets s = false /\ round_active s = true
  end.

Lemma flags_wf_step (py_int : string -> option Z) (s : state) (act : action) :
  flags_wf s -> flags_wf (step py_int s act).1.1.
Proof.
  intros Hwf. destruct (is_engine act) eqn:Ea.
  - destruct act; try discriminate. simpl. unfold engine_step, flags_wf in *.
    destruct (pc s); simpl; try tauto.
    destruct (Qltb _ _); simpl; tauto.
  - pose proof (handler_engine_view py_int s act Ea) as H.
    unfold engine_view in H. injection H as _ _ Hr Ha Hp.
    unfold flags_wf in *. rewrite Hp, Ha, Hr. exact Hwf.
Qed.

Lemma flags_wf_run (py_int : string -> option Z) (acts : list action) :
  forall s, flags_wf s -> flags_wf (run py_int s acts).1.
Proof.
  induction acts as [|a rest IH]; intros s Hs; simpl; [exact Hs|].
  pose proof (flags_wf_step py_int s a Hs) as H1.
  destruct (step py_int s a) as [[s1 r] ev1].
  destruct (run py_int s1 rest) as [s2 ev2] eqn:E.
  specialize (IH s1 H1). rewrite E in IH. exact IH.
Qed.

Lemma reachable_flags_wf (py_int : string -> option Z) (s : state) :
  reachable py_int s -> flags_wf s.
Proof.
  intros (us & pr & acts & ->). apply flags_wf_run.
  unfold flags_wf. simpl. auto.
Qed.

Lemma round2_range (x : Q) :
  (3 # 2) <= x -> x <= 3 -> (3 # 2) <= round2 x /\ round2 x <= 3.
Proof.
  intros Hlo Hhi.
  pose proof (round2_lower x) as L. pose proof (round2_upper x) as U.
  destruct (round2_hundredths x) as [k Hk]. rewrite Hk in *.
  assert (L' : (299 # 200) <= Qmake k 100) by lra.
  assert (U' : Qmake k 100 <= (601 # 200)) by lra.
  unfold Qle in *; simpl in *. split; lia.
Qed.

(** ** Claim C6: multiplier dynamics *)

(** A Waiting-phase state, ready for the flight to start. *)
Definition betting_state : state :=
  mkState ∅ ∅ ∅ 1 2 false true PBetting.

(** C6 (as stated): the crash multiplier is a uniform draw from
    [[1.5, 3.0]].  It is the draw rounded to two decimals: a draw of 1.505
    gives the crash point 1.50, and no draw at all gives 1.505, a point of
    the interval. *)
Lemma crash_point_is_rounded_draw :
  crash_multiplier (engine_step (1505 # 1000) betting_state).1.1 == 3 # 2 /\
  ~ (forall x : Q, (3 # 2) <= x -> x <= 3 ->
       exists y, (3 # 2) <= y /\ y <= 3 /\
         crash_multiplier (engine_step y betting_state).1.1 == x).
Proof.
  split; [vm_compute; reflexivity|].
  intros H. destruct (H (1505 # 1000)) as (y & _ & _ & Hy);
    [unfold Qle; simpl; lia | unfold Qle; simpl; lia |].
  simpl in Hy. destruct (round2_hundredths y) as [k Hk]. rewrite Hk in Hy.
  unfold Qeq in Hy. simpl in Hy. lia.
Qed.

(** C6 (amended): in every reachable state, with [x] the value
    [random.uniform(1.5, 3.0)] returns, one step of [round_loop] keeps the
    phase or moves it to the next one of Waiting -> Flight -> Crashed ->
    Waiting; entering Flight sets [current_multiplier] to 1 and the crash
    point to [round2 x], which lies in [[1.5, 3.0]]; a step that stays in
    Flight sets the multiplier to [round2 (current + 0.01)], never lower;
    a Flight step leaves Flight exactly when [current >= crash]; and no
    request handler changes the phase or either multiplier. *)
Theorem round_engine_dynamics (py_int : string -> option Z) (s : state) (x : Q) :
  reachable py_int s -> (3 # 2) <= x -> x <= 3 ->
  let s' := (engine_step x s).1.1 in
  (phase s' = phase s \/ phase s' = next_phase (phase s)) /\
  (phase s <> Flight -> phase s' = Flight ->
     current_multiplier s' = 1 /\ crash_multiplier s' = round2 x /\
     (3 # 2) <= crash_multiplier s' /\ crash_multiplier s' <= 3) /\
  (phase s = Flight -> phase s' = Flight ->
     current_multiplier s' = round2 (current_multiplier s + (1 # 100)) /\
     current_multiplier s <= current_multiplier s') /\
  (phase s = Flight ->
     (phase s' = Flight <-> current_multiplier s < crash_multiplier s)) /\
  (forall act, is_engine act = false ->
     phase (step py_int s act).1.1 = phase s /\
     current_multiplier (step py_int s act).1.1 = current_multiplier s /\
     crash_multiplier (step py_int s act).1.1 = crash_multiplier s).
Proof.
  intros Hr Hlo Hhi s'.
  pose proof (reachable_flags_wf py_int s Hr) as Hwf.
  split; [|split; [|split; [|split]]].
  - unfold s', engine_step, phase, flags_wf in *.
    destruct (pc s); destruct Hwf as [Ha0 Hr0]; rewrite ?Ha0, ?Hr0; simpl; auto.
    destruct (Qltb _ _); simpl; auto.
  - unfold s', engine_step, phase, flags_wf in *.
    destruct (pc s); destruct Hwf as [Ha0 Hr0]; rewrite ?Ha0, ?Hr0; simpl; try congruence.
    intros _ _. split; [reflexivity|]. split; [reflexivity|].
    apply round2_range; assumption.
  - unfold s', engine_step, phase, flags_wf in *.
    destruct (pc s); destruct Hwf as [Ha0 Hr0]; rewrite ?Ha0, ?Hr0; simpl; try congruence.
    destruct (Qltb _ _); simpl; [|congruence].
    intros _ _. split; [reflexivity|].
    pose proof (round2_lower (current_multiplier s + (1 # 100))). lra.
  - unfold s', engine_step, phase, flags_wf in *.
    destruct (pc s); destruct Hwf as [Ha0 Hr0]; rewrite ?Ha0, ?Hr0; simpl; try congruence.
    intros _. destruct (Qltb _ _) eqn:E; simpl.
    + apply Qltb_spec in E. tauto.
    + apply Qltb_false in E. split; [congruence|].
      intros Hlt. exfalso. apply (Qlt_not_le _ _ Hlt E).
  - intros act Ha. pose proof (handler_engine_view py_int s act Ha) as H.
    unfold engine_view in H. injection H as Hc Hk Hr' Ha' _.
    unfold phase. rewrite Hc, Hk, Hr', Ha'. auto.
Qed.

Lemma round_engine_dynamics_witness :
  reachable decimal_int betting_state /\ (3 # 2) <= 2 /\ 2 <= 3 /\
  let s' := (engine_step 2 betting_state).1.1 in
  phase s' = Flight /\ current_multiplier s' = 1.
Proof.
  assert (Hr : reachable decimal_int betting_state)
    by (exists ∅, ∅, [AEngine 0]; reflexivity).
  assert (H2 : (3 # 2) <= 2) by (unfold Qle; simpl; lia).
  assert (H3 : 2 <= 3) by (unfold Qle; simpl; lia).
  split; [exact Hr|]. split; [exact H2|]. split; [exact H3|].
  pose proof (round_engine_dynamics decimal_int betting_state 2 Hr H2 H3) as
    (_ & Hentry & _).
  assert (Hf : phase (engine_step 2 betting_state).1.1 = Flight) by reflexivity.
  split; [exact Hf|].
  apply (Hentry ltac:(discriminate) Hf).
Defined.

(** ** Claim C2: settlement of bets *)

Fixpoint count_ev (f : event -> bool) (evs : list event) : nat :=
  match evs with
  | [] => 0
  | e :: rest => (if f e then 1 else 0) + count_ev f rest
  end.

Definition placed_by (u : Z) (e : event) : bool :=
  match e with EvPlaced v _ => bool_decide (v = u) | _ => false end.
Definition cashed_by (u : Z) (e : event) : bool :=
  match e with EvCashedOut v _ => bool_decide (v = u) | _ => false end.
Definition forfeited_by (u : Z) (e : event) : bool :=
  match e with EvForfeited v _ => bool_decide (v = u) | _ => false end.

(** 1 when user [u] has an entry in the registry. *)
Definition in_registry (s : state) (u : Z) : nat :=
  match bets s !! u with Some _ => 1 | None => 0 end.

(** No [place_bet] of the run succeeds for a user whose previous bet is
    still in the registry. *)
Definition fresh_placement (s : state) (act : action) : Prop :=
  match act with
  | APlaceBet u a => bets s !! u = None \/ (place_bet s u a).1.2 <> RBetAccepted
  | _ => True
  end.

Fixpoint no_second_bet (py_int : string -> option Z) (s : state)
    (acts : list action) : Prop :=
  match acts with
  | [] => True
  | a :: rest => fresh_placement s a /\ no_second_bet py_int (step py_int s a).1.1 rest
  end.

Lemma count_ev_app (f : event -> bool) (l1 l2 : list event) :
  count_ev f (l1 ++ l2) = (count_ev f l1 + count_ev f l2)%nat.
Proof. induction l1; simpl; lia. Qed.

Lemma count_ev_perm (f : event -> bool) (l1 l2 : list event) :
  l1 ≡ₚ l2 -> count_ev f l1 = count_ev f l2.
Proof. induction 1; simpl; lia. Qed.

Lemma count_forfeit_events (u : Z) (m : gmap Z bet_entry) :
  count_ev (forfeited_by u) (forfeit_events m) =
  match m !! u with Some _ => 1%nat | None => 0%nat end.
Proof.
  unfold forfeit_events. induction m as [|i x m Hi IH] using map_ind.
  - rewrite map_to_list_empty. simpl. by rewrite lookup_empty.
  - rewrite (count_ev_perm _ _ _ (Permutation_map _ (map_to_list_insert m i x Hi))).
    simpl. rewrite IH. unfold forfeited_by. simpl.
    destruct (decide (i = u)) as [->|Hne].
    + rewrite bool_decide_true by reflexivity. rewrite Hi, lookup_insert_eq. reflexivity.
    + rewrite bool_decide_false by congruence. rewrite lookup_insert_ne by congruence.
      reflexivity.
Qed.

Lemma count_forfeit_events_other (f : event -> bool) (m : gmap Z bet_entry) :
  (forall v a, f (EvForfeited v a) = false) ->
  count_ev f (forfeit_events m) = 0%nat.
Proof.
  intros Hf. unfold forfeit_events.
  induction (map_to_list m) as [|kv l IH]; simpl; [reflexivity|].
  rewrite Hf, IH. reflexivity.
Qed.

(** Reconciliation emits only balance and credit events. *)
Lemma process_txs_no_bet_events (py_int : string -> option Z) (u : Z)
    (txs : list tx) :
  forall s,
  count_ev (placed_by u) (process_txs py_int s txs).2 = 0%nat /\
  count_ev (cashed_by u) (process_txs py_int s txs).2 = 0%nat /\
  count_ev (forfeited_by u) (process_txs py_int s txs).2 = 0%nat.
Proof.
  induction txs as [|t rest IH]; intros s; simpl; [auto|].
  destruct (process_tx py_int s t) as [s1 ev1] eqn:E1.
  specialize (IH s1). destruct (process_txs py_int s1 rest) as [s2 ev2]. simpl in *.
  rewrite !count_ev_app.
  assert (count_ev (placed_by u) ev1 = 0%nat /\ count_ev (cashed_by u) ev1 = 0%nat /\
          count_ev (forfeited_by u) ev1 = 0%nat) as (A & B & C).
  { unfold process_tx in E1. repeat case_match; simplify_eq; simpl; auto. }
  lia.
Qed.

(** 1 when [act] is a [place_bet] of user [u] that succeeds while [u]
    still holds a bet, so that line 91 overwrites the entry. *)
Definition overwrite_step (s : state) (u : Z) (act : action) : nat :=
  match act with
  | APlaceBet v a =>
      if bool_decide (v = u) then
        match bets s !! v, (place_bet s v a).1.2 with
        | Some _, RBetAccepted => 1
        | _, _ => 0
        end
      else 0
  | _ => 0
  end.

(** The number of such overwrites along a run. *)
Fixpoint overwrites (py_int : string -> option Z) (s : state)
    (acts : list action) (u : Z) : nat :=
  match acts with
  | [] => 0
  | a :: rest => overwrite_step s u a + overwrites py_int (step py_int s a).1.1 rest u
  end.

Lemma settle_step (py_int : string -> option Z) (s : state) (act : action) (u : Z) :
  let '(s1, _, evs) := step py_int s act in
  (count_ev (placed_by u) evs + in_registry s u =
   count_ev (cashed_by u) evs + count_ev (forfeited_by u) evs +
   overwrite_step s u act + in_registry s1 u)%nat.
Proof.
  destruct act as [v|v a|v a|v|txs|x]; cbn [step overwrite_step].
  - simpl. lia.
  - unfold topup_balance. destruct (users s !! v); simpl; unfold in_registry; simpl; lia.
  - unfold place_bet. destruct (accepting_bets s); simpl;
      [|destruct (bool_decide (v = u)), (bets s !! v); simpl; lia].
    destruct (users s !! v); simpl;
      [|destruct (bool_decide (v = u)), (bets s !! v); simpl; lia].
    destruct (Qltb _ _); simpl;
      [destruct (bool_decide (v = u)), (bets s !! v); simpl; lia|].
    unfold in_registry; simpl. unfold placed_by, cashed_by, forfeited_by.
    destruct (decide (v = u)) as [->|Hne].
    + rewrite bool_decide_true by reflexivity. rewrite lookup_insert_eq.
      destruct (bets s !! u); lia.
    + rewrite bool_decide_false by congruence. rewrite lookup_insert_ne by congruence.
      lia.
  - unfold cashout. destruct (bets s !! v) eqn:Hb; simpl; [|lia].
    destruct (users s !! v); simpl; [|lia].
    unfold in_registry; simpl. unfold cashed_by.
    destruct (decide (v = u)) as [->|Hne].
    + rewrite bool_decide_true by reflexivity. rewrite lookup_delete_eq, Hb. lia.
    + rewrite bool_decide_false by congruence. rewrite lookup_delete_ne by congruence.
      lia.
  - unfold check_transactions.
    pose proof (process_txs_no_bet_events py_int u txs s) as (A & B & C).
    pose proof (process_txs_fields py_int txs s) as [_ D].
    destruct (process_txs py_int s txs) as [s' evs]. simpl in *.
    unfold in_registry. rewrite D. lia.
  - unfold engine_step. destruct (pc s); simpl; unfold in_registry; simpl; try lia.
    + destruct (Qltb _ _); simpl; lia.
    + rewrite count_forfeit_events, lookup_empty.
      rewrite !count_forfeit_events_other by reflexivity. lia.
Qed.

Lemma settle_run (py_int : string -> option Z) (acts : list action) (u : Z) :
  forall s : state,
  let '(s', evs) := run py_int s acts in
  (count_ev (placed_by u) evs + in_registry s u =
   count_ev (cashed_by u) evs + count_ev (forfeited_by u) evs +
   overwrites py_int s acts u + in_registry s' u)%nat.
Proof.
  induction acts as [|a rest IH]; intros s; simpl; [lia|].
  pose proof (settle_step py_int s a u) as Hstep.
  destruct (step py_int s a) as [[s1 r] ev1]. simpl.
  specialize (IH s1).
  destruct (run py_int s1 rest) as [s2 ev2].
  rewrite !count_ev_app. lia.
Qed.

Lemma fresh_no_overwrite (py_int : string -> option Z) (acts : list action) (u : Z) :
  forall s : state, no_second_bet py_int s acts -> overwrites py_int s acts u = 0%nat.
Proof.
  induction acts as [|a rest IH]; intros s Hn; [reflexivity|].
  destruct Hn as [Hf Hn]. cbn [overwrites]. rewrite (IH _ Hn).
  destruct a as [v|v x|v x|v|txs|x]; cbn [overwrite_step]; try reflexivity.
  destruct (bool_decide (v = u)); [|reflexivity].
  destruct Hf as [Hb|Hr]; [rewrite Hb; reflexivity|].
  destruct (bets s !! v); [|reflexivity].
  destruct ((place_bet s v x).1.2); try reflexivity. congruence.
Qed.

(** A run in which user 7 bets 10, then bets 5 in the same betting window,
    and the round then flies to its crash at 2 and is cleared. *)
Definition overwrite_run : list action :=
  [AEngine 0; APlaceBet 7 10; APlaceBet 7 5; AEngine 2] ++ repeat (AEngine 0) 102.

(** C2 (as stated): every placed bet is settled by exactly one of cashout
    and forfeiture.  In [overwrite_run] two bets of user 7 are placed, the
    round ends with an empty registry, yet only one of them is settled (the
    bet of 5 is forfeited; the stake of 10 is neither paid out nor
    forfeited). *)
Lemma overwritten_bet_never_settled :
  let '(s', evs) := run decimal_int (init_state {[7%Z := 100]} ∅) overwrite_run in
  count_ev (placed_by 7) evs = 2%nat /\
  count_ev (cashed_by 7) evs = 0%nat /\
  count_ev (forfeited_by 7) evs = 1%nat /\
  bets s' = ∅.
Proof. vm_compute. repeat split. Qed.

(** C2 (amended).  For every user [u] and every run, with no hypothesis:
    the bets [u] placed, plus the one [u] held at the start, equal the bets
    cashed out, plus the bets forfeited at a crash, plus the bets
    overwritten by a second [place_bet], plus the one [u] holds at the end;
    so settlements never exceed placements plus the bet held at the start
    (each bet is settled at most once).  Along a run with no second bet
    while the previous one is in the registry there is no overwrite, so
    every placed bet is settled exactly once.  The clearing after a crash
    forfeits every entry and changes no balance (no refund).  An overwrite
    debits only the new amount and records it, with no cashout or forfeit
    of the earlier stake. *)
Theorem bet_settled_exactly_once (py_int : string -> option Z)
    (acts : list action) (u : Z) (s : state) :
  (let '(s', evs) := run py_int s acts in
   (count_ev (placed_by u) evs + in_registry s u =
    count_ev (cashed_by u) evs + count_ev (forfeited_by u) evs +
    overwrites py_int s acts u + in_registry s' u)%nat /\
   (count_ev (cashed_by u) evs + count_ev (forfeited_by u) evs <=
    count_ev (placed_by u) evs + in_registry s u)%nat /\
   (no_second_bet py_int s acts ->
    overwrites py_int s acts u = 0%nat /\
    (count_ev (placed_by u) evs + in_registry s u =
     count_ev (cashed_by u) evs + count_ev (forfeited_by u) evs +
     in_registry s' u)%nat)) /\
  (forall (x : Q) (t : state), pc t = PCrashed ->
   let '(t', _, evs) := engine_step x t in
   users t' = users t /\ bets t' = ∅ /\
   count_ev (forfeited_by u) evs = in_registry t u /\
   count_ev (cashed_by u) evs = 0%nat) /\
  (forall (t : state) (a b : Q) (e : bet_entry),
   accepting_bets t = true -> bets t !! u = Some e -> users t !! u = Some b ->
   a <= b ->
   let '(t', r, evs) := place_bet t u a in
   r = RBetAccepted /\ users t' !! u = Some (b - a) /\
   bets t' !! u = Some (mkBet a None) /\ evs = [EvDelta u (- a); EvPlaced u a]).
Proof.
  split; [|split].
  - pose proof (settle_run py_int acts u s) as H.
    pose proof (fresh_no_overwrite py_int acts u s) as Hf.
    destruct (run py_int s acts) as [s' evs].
    split; [exact H|]. split; [lia|].
    intros Hn. specialize (Hf Hn). split; [exact Hf|]. lia.
  - intros x t Hpc. unfold engine_step. rewrite Hpc. cbn [users bets].
    split; [reflexivity|]. split; [reflexivity|].
    rewrite count_forfeit_events, count_forfeit_events_other by reflexivity.
    split; reflexivity.
  - intros t a b e Hacc _ Hu Hab. unfold place_bet. rewrite Hacc, Hu. simpl.
    assert (Qltb b a = false) as -> by (apply Qltb_false; exact Hab).
    simpl. split; [reflexivity|].
    split; [by rewrite lookup_insert_eq|].
    split; [by rewrite lookup_insert_eq|reflexivity].
Qed.

(** The scenario of the spec: user 7 bets 20 out of 100 and cashes out at
    1.53, so one bet placed and one cashed out. *)
Definition start_state : state := init_state {[7%Z := 100]} ∅.

Definition cashout_run : list action :=
  [AEngine 0; APlaceBet 7 20; AEngine 2] ++ repeat (AEngine 0) 53 ++ [ACashout 7].

(** User 7 bets 10; the round flies to its crash at 2 and is cleared, so
    the bet is forfeited. *)
Definition forfeit_run : list action :=
  [AEngine 0; APlaceBet 7 10; AEngine 2] ++ repeat (AEngine 0) 102.

Lemma bet_settled_exactly_once_witness :
  no_second_bet decimal_int start_state forfeit_run /\
  overwrites decimal_int start_state forfeit_run 7 = 0%nat /\
  let '(s', evs) := run decimal_int start_state forfeit_run in
  count_ev (placed_by 7) evs = 1%nat /\ count_ev (forfeited_by 7) evs = 1%nat /\
  count_ev (cashed_by 7) evs = 0%nat /\
  (count_ev (placed_by 7) evs + in_registry start_state 7 =
   count_ev (cashed_by 7) evs + count_ev (forfeited_by 7) evs + in_registry s' 7)%nat.
Proof.
  assert (Hn : no_second_bet decimal_int start_state forfeit_run).
  { vm_compute. repeat split; left; reflexivity. }
  assert (Hc : let '(s', evs) := run decimal_int start_state forfeit_run in
               count_ev (placed_by 7) evs = 1%nat /\
               count_ev (forfeited_by 7) evs = 1%nat /\
               count_ev (cashed_by 7) evs = 0%nat)
    by (vm_compute; repeat split).
  pose proof (bet_settled_exactly_once decimal_int forfeit_run 7 start_state)
    as [T _].
  split; [exact Hn|].
  revert Hc T. destruct (run decimal_int start_state forfeit_run) as [s' evs].
  intros (H1 & H2 & H3) (_ & _ & T3).
  destruct (T3 Hn) as [T4 T5].
  split; [exact T4|]. split; [exact H1|]. split; [exact H2|]. split; [exact H3|].
  exact T5.
Defined.

(** ** Claim C7: deduplication of external payments *)

Definition credited_tx (h : string) (e : event) : bool :=
  match e with EvCredited h' _ _ => bool_decide (h' = h) | _ => false end.

(** 1 when [h] is recorded in [processed_transactions]. *)
Definition in_processed (s : state) (h : string) : nat :=
  match processed s !! h with Some _ => 1 | None => 0 end.

(** The user a transaction's comment names, when lines 126-137 do not
    [continue]. *)
Definition memo_user (py_int : string -> option Z) (t : tx) : option Z :=
  match msg_of t with
  | None => None
  | Some m =>
      match comment m with
      | None => None
      | Some c =>
          if String.eqb c "" then None
          else if negb (String.prefix "user_" c) then None
          else py_int (remove_all "user_" c)
      end
  end.

Lemma process_tx_dedup (py_int : string -> option Z) (s : state) (t : tx)
    (h : string) :
  (count_ev (credited_tx h) (process_tx py_int s t).2 + in_processed s h =
   in_processed (process_tx py_int s t).1 h)%nat /\
  (is_Some (processed s !! h) -> is_Some (processed (process_tx py_int s t).1 !! h)) /\
  (tx_hash t = h -> is_Some (memo_user py_int t) ->
   is_Some (processed (process_tx py_int s t).1 !! h)).
Proof.
  unfold process_tx, memo_user.
  destruct (msg_of t) as [m|]; simpl;
    [|split; [lia|split; [auto|intros _ []; discriminate]]].
  destruct (comment m) as [c|]; simpl;
    [|split; [lia|split; [auto|intros _ []; discriminate]]].
  destruct (String.eqb c ""); simpl;
    [split; [lia|split; [auto|intros _ []; discriminate]]|].
  destruct (String.prefix "user_" c); simpl;
    [|split; [lia|split; [auto|intros _ []; discriminate]]].
  destruct (py_int (remove_all "user_" c)) as [uid|]; simpl;
    [|split; [lia|split; [auto|intros _ []; discriminate]]].
  destruct (processed s !! tx_hash t) as [x|] eqn:Hp; simpl.
  - split; [lia|]. split; [auto|]. intros <- _. rewrite Hp. eauto.
  - unfold in_processed, credited_tx; simpl.
    destruct (decide (tx_hash t = h)) as [<-|Hne].
    + rewrite bool_decide_true by reflexivity. rewrite lookup_insert_eq, Hp.
      split; [lia|]. split; intros; eauto.
    + rewrite bool_decide_false by congruence.
      rewrite lookup_insert_ne by congruence.
      split; [lia|]. split; [auto|]. intros; congruence.
Qed.

Lemma process_txs_dedup (py_int : string -> option Z) (h : string) (txs : list tx) :
  forall s : state,
  (count_ev (credited_tx h) (process_txs py_int s txs).2 + in_processed s h =
   in_processed (process_txs py_int s txs).1 h)%nat /\
  (is_Some (processed s !! h) -> is_Some (processed (process_txs py_int s txs).1 !! h)) /\
  (forall t, t ∈ txs -> tx_hash t = h -> is_Some (memo_user py_int t) ->
   is_Some (processed (process_txs py_int s txs).1 !! h)).
Proof.
  induction txs as [|t rest IH]; intros s; simpl.
  - split; [lia|]. split; [auto|]. intros t Ht. inversion Ht.
  - pose proof (process_tx_dedup py_int s t h) as (A & B & C).
    destruct (process_tx py_int s t) as [s1 ev1]. simpl in A, B, C.
    specialize (IH s1) as (D & E & F).
    destruct (process_txs py_int s1 rest) as [s2 ev2]. simpl in *.
    rewrite count_ev_app. split; [lia|]. split; [auto|].
    intros t' Ht' Hh Hv. apply elem_of_cons in Ht' as [->|Ht'].
    + apply E, C; assumption.
    + apply (F t'); assumption.
Qed.

Lemma step_dedup (py_int : string -> option Z) (h : string) (s : state) (act : action) :
  (count_ev (credited_tx h) (step py_int s act).2 + in_processed s h =
   in_processed (step py_int s act).1.1 h)%nat /\
  (is_Some (processed s !! h) -> is_Some (processed (step py_int s act).1.1 !! h)) /\
  (forall txs t, act = ACheck txs -> t ∈ txs -> tx_hash t = h ->
   is_Some (memo_user py_int t) -> is_Some (processed (step py_int s act).1.1 !! h)).
Proof.
  destruct act as [v|v a|v a|v|txs|x]; simpl; unfold in_processed.
  - split; [lia|]. split; [auto|]. discriminate.
  - unfold topup_balance. destruct (users s !! v); simpl;
      (split; [lia|]; split; [auto|]; discriminate).
  - unfold place_bet. destruct (accepting_bets s); simpl;
      [|split; [lia|]; split; [auto|]; discriminate].
    destruct (users s !! v); simpl; [|split; [lia|]; split; [auto|]; discriminate].
    destruct (Qltb _ _); simpl; (split; [lia|]; split; [auto|]; discriminate).
  - unfold cashout. destruct (bets s !! v); simpl;
      [|split; [lia|]; split; [auto|]; discriminate].
    destruct (users s !! v); simpl; (split; [lia|]; split; [auto|]; discriminate).
  - unfold check_transactions.
    pose proof (process_txs_dedup py_int h txs s) as (A & B & C).
    destruct (process_txs py_int s txs) as [s' evs]. simpl in *.
    unfold in_processed in A.
    split; [lia|]. split; [auto|]. intros txs' t [= <-]. apply C.
  - unfold engine_step. destruct (pc s); simpl;
      try (split; [lia|]; split; [auto|]; discriminate).
    + destruct (Qltb _ _); simpl; (split; [lia|]; split; [auto|]; discriminate).
    + rewrite count_forfeit_events_other by reflexivity.
      split; [lia|]. split; [auto|]. discriminate.
Qed.

(** C7: along any run of the server (any number of reconciliation passes,
    over any transaction lists, interleaved with every other request and
    the round engine), a transaction identifier [h] is credited at most
    once; if [h] is already recorded at the start it is never credited;
    and if it is not recorded at the start and some pass sees a
    transaction [h] whose comment names a user, it is credited exactly
    once. *)
Theorem external_tx_credited_once (py_int : string -> option Z) (h : string)
    (acts : list action) :
  forall s : state,
  let '(s', evs) := run py_int s acts in
  (count_ev (credited_tx h) evs + in_processed s h = in_processed s' h)%nat /\
  (count_ev (credited_tx h) evs <= 1)%nat /\
  (is_Some (processed s !! h) -> count_ev (credited_tx h) evs = 0%nat) /\
  (processed s !! h = None ->
   (exists txs t, ACheck txs ∈ acts /\ t ∈ txs /\ tx_hash t = h /\
                  is_Some (memo_user py_int t)) ->
   count_ev (credited_tx h) evs = 1%nat).
Proof.
  assert (Hmain : forall s,
    let '(s', evs) := run py_int s acts in
    (count_ev (credited_tx h) evs + in_processed s h = in_processed s' h)%nat /\
    (is_Some (processed s !! h) -> is_Some (processed s' !! h)) /\
    ((exists txs t, ACheck txs ∈ acts /\ t ∈ txs /\ tx_hash t = h /\
                    is_Some (memo_user py_int t)) ->
     is_Some (processed s' !! h))).
  { induction acts as [|a rest IH]; intros s; simpl.
    - split; [lia|]. split; [auto|]. intros (txs & t & Hin & _). inversion Hin.
    - pose proof (step_dedup py_int h s a) as (A & B & C).
      destruct (step py_int s a) as [[s1 r] ev1]. simpl in A, B, C.
      specialize (IH s1).
      destruct (run py_int s1 rest) as [s2 ev2]. destruct IH as (D & E & F).
      rewrite count_ev_app. split; [lia|]. split; [auto|].
      intros (txs & t & Hin & Ht & Hh & Hv).
      apply elem_of_cons in Hin as [Heq|Hin].
      + apply E, (C txs t (eq_sym Heq)); assumption.
      + apply F. exists txs, t. auto. }
  intros s. specialize (Hmain s).
  destruct (run py_int s acts) as [s' evs]. destruct Hmain as (A & _ & C).
  assert (in_processed s' h <= 1)%nat
    by (unfold in_processed; destruct (processed s' !! h); lia).
  split; [exact A|]. split; [lia|]. split.
  - intros [x Hx].
    assert (in_processed s h = 1%nat) by (unfold in_processed; rewrite Hx; reflexivity).
    lia.
  - intros Hn Hex. specialize (C Hex). destruct C as [x Hx].
    assert (in_processed s h = 0%nat) by (unfold in_processed; rewrite Hn; reflexivity).
    assert (in_processed s' h = 1%nat) by (unfold in_processed; rewrite Hx; reflexivity).
    lia.
Qed.

(** The spec's scenario: [tx123] with comment [user_42] and 5_000_000_000
    nanoTON, seen twice in one pass and again in a second pass. *)
Definition tx123 : tx := mkTx "tx123" (Some (mkMsg (Some "user_42") 5000000000)).

Definition double_check_run : list action :=
  [ACheck [tx123; tx123]; ACheck [tx123]].

Lemma external_tx_credited_once_witness :
  processed (init_state ∅ ∅) !! "tx123" = None /\
  (exists txs t, ACheck txs ∈ double_check_run /\ t ∈ txs /\ tx_hash t = "tx123" /\
                 is_Some (memo_user decimal_int t)) /\
  count_ev (credited_tx "tx123") (run decimal_int (init_state ∅ ∅) double_check_run).2
    = 1%nat.
Proof.
  assert (Hn : processed (init_state ∅ ∅) !! "tx123" = None) by reflexivity.
  assert (Hex : exists txs t, ACheck txs ∈ double_check_run /\ t ∈ txs /\
                  tx_hash t = "tx123" /\ is_Some (memo_user decimal_int t)).
  { exists [tx123; tx123], tx123. split; [left|]. split; [left|].
    split; [reflexivity|]. eexists; reflexivity. }
  split; [exact Hn|]. split; [exact Hex|].
  pose proof (external_tx_credited_once decimal_int "tx123" double_check_run
                (init_state ∅ ∅)) as H.
  destruct (run decimal_int (init_state ∅ ∅) double_check_run) as [s' evs].
  destruct H as (_ & _ & _ & H). exact (H Hn Hex).
Defined.

(** ** Claim C8: balances *)

(** The balance of [v] in the [users] table, 0 when there is no row. *)
Definition bal (s : state) (v : Z) : Q :=
  match users s !! v with Some b => b | None => 0 end.

Fixpoint delta_sum (v : Z) (evs : list event) : Q :=
  match evs with
  | [] => 0
  | EvDelta u d :: rest => (if bool_decide (u = v) then d else 0) + delta_sum v rest
  | _ :: rest => delta_sum v rest
  end.

Lemma delta_sum_app (v : Z) (l1 l2 : list event) :
  delta_sum v (l1 ++ l2) == delta_sum v l1 + delta_sum v l2.
Proof.
  induction l1 as [|e l1 IH]; simpl; [lra|].
  destruct e; simpl; rewrite IH; lra.
Qed.

Lemma delta_sum_forfeit (v : Z) (m : gmap Z bet_entry) :
  delta_sum v (forfeit_events m) == 0.
Proof.
  unfold forfeit_events.
  induction (map_to_list m) as [|kv l IH]; simpl; [reflexivity|exact IH].
Qed.

(** Writing [x = old + d] into the row of [u] changes [bal] by [d] at [u]
    only. *)
Lemma bal_set (s : state) (u v : Z) (x d : Q) :
  x == bal s u + d ->
  match (<[u := x]> (users s)) !! v with Some b => b | None => 0 end ==
  bal s v + (if bool_decide (u = v) then d else 0).
Proof.
  intros Hx. destruct (decide (u = v)) as [->|Hne].
  - rewrite bool_decide_true, lookup_insert_eq by reflexivity. exact Hx.
  - rewrite bool_decide_false, lookup_insert_ne by congruence.
    unfold bal. lra.
Qed.

Lemma process_tx_delta (py_int : string -> option Z) (s : state) (t : tx) (v : Z) :
  bal (process_tx py_int s t).1 v == bal s v + delta_sum v (process_tx py_int s t).2.
Proof.
  unfold process_tx.
  destruct (msg_of t) as [m|]; simpl; [|lra].
  destruct (comment m) as [c|]; simpl; [|lra].
  destruct (String.eqb c ""); simpl; [lra|].
  destruct (String.prefix "user_" c); simpl; [|lra].
  destruct (py_int (remove_all "user_" c)) as [uid|]; simpl; [|lra].
  destruct (processed s !! tx_hash t); simpl; [lra|].
  unfold bal at 1; simpl.
  destruct (users s !! uid) as [b|] eqn:Hb;
    (rewrite (bal_set s uid v _ (ton_amount (value m))); [lra|unfold bal; rewrite Hb; lra]).
Qed.

Lemma process_txs_delta (py_int : string -> option Z) (v : Z) (txs : list tx) :
  forall s : state,
  bal (process_txs py_int s txs).1 v == bal s v + delta_sum v (process_txs py_int s txs).2.
Proof.
  induction txs as [|t rest IH]; intros s; simpl; [lra|].
  pose proof (process_tx_delta py_int s t v) as A.
  destruct (process_tx py_int s t) as [s1 ev1]. simpl in A.
  specialize (IH s1). destruct (process_txs py_int s1 rest) as [s2 ev2]. simpl in *.
  rewrite delta_sum_app. lra.
Qed.

Lemma step_delta (py_int : string -> option Z) (s : state) (act : action) (v : Z) :
  bal (step py_int s act).1.1 v == bal s v + delta_sum v (step py_int s act).2.
Proof.
  destruct act as [u|u a|u a|u|txs|x]; simpl.
  - lra.
  - unfold topup_balance. unfold bal at 1.
    destruct (users s !! u) as [b|] eqn:Hb; simpl;
      (rewrite (bal_set s u v _ a); [lra|unfold bal; rewrite Hb; lra]).
  - unfold place_bet. destruct (accepting_bets s); simpl; [|lra].
    destruct (users s !! u) as [b|] eqn:Hb; simpl; [|lra].
    destruct (Qltb b a); simpl; [lra|].
    unfold bal at 1; simpl.
    rewrite (bal_set s u v _ (- a)); [lra|unfold bal; rewrite Hb; lra].
  - unfold cashout. destruct (bets s !! u) as [e|]; simpl; [|lra].
    destruct (users s !! u) as [b|] eqn:Hb; simpl; [|lra].
    unfold bal at 1; simpl.
    rewrite (bal_set s u v _ (amount e * current_multiplier s));
      [lra|unfold bal; rewrite Hb; lra].
  - unfold check_transactions.
    pose proof (process_txs_delta py_int v txs s) as A.
    destruct (process_txs py_int s txs). exact A.
  - unfold engine_step. destruct (pc s); simpl; try (unfold bal; simpl; lra).
    + destruct (Qltb _ _); simpl; unfold bal; simpl; lra.
    + rewrite delta_sum_forfeit. unfold bal; simpl; lra.
Qed.

(** Balances, bet amounts and the multiplier are all non-negative. *)
Definition nonneg_state (s : state) : Prop :=
  (forall v b, users s !! v = Some b -> 0 <= b) /\
  (forall v e, bets s !! v = Some e -> 0 <= amount e) /\
  0 <= current_multiplier s.

(** Every amount the request carries is non-negative. *)
Definition nonneg_action (act : action) : Prop :=
  match act with
  | ATopup _ a | APlaceBet _ a => 0 <= a
  | ACheck txs => forall t m, t ∈ txs -> msg_of t = Some m -> (0 <= value m)%Z
  | _ => True
  end.

Lemma ton_amount_nonneg (v : Z) : (0 <= v)%Z -> 0 <= ton_amount v.
Proof. intros Hv. unfold ton_amount, Qle, Qdiv, Qmult; simpl. lia. Qed.

Lemma nonneg_insert (m : gmap Z Q) (u : Z) (x : Q) :
  (forall v b, m !! v = Some b -> 0 <= b) -> 0 <= x ->
  forall v b, <[u := x]> m !! v = Some b -> 0 <= b.
Proof.
  intros Hm Hx v b. destruct (decide (u = v)) as [->|Hne].
  - rewrite lookup_insert_eq. intros [= <-]. exact Hx.
  - rewrite lookup_insert_ne by congruence. apply Hm.
Qed.

Lemma process_tx_nonneg (py_int : string -> option Z) (s : state) (t : tx) :
  (forall m, msg_of t = Some m -> (0 <= value m)%Z) ->
  nonneg_state s -> nonneg_state (process_tx py_int s t).1.
Proof.
  intros Ht Hs. unfold process_tx.
  destruct (msg_of t) as [m|] eqn:Hm; simpl; [|exact Hs].
  destruct (comment m) as [c|]; simpl; [|exact Hs].
  destruct (String.eqb c ""); simpl; [exact Hs|].
  destruct (String.prefix "user_" c); simpl; [|exact Hs].
  destruct (py_int (remove_all "user_" c)) as [uid|]; simpl; [|exact Hs].
  destruct (processed s !! tx_hash t); simpl; [exact Hs|].
  destruct Hs as (Hu & Hb & Hc).
  pose proof (ton_amount_nonneg (value m) (Ht m eq_refl)) as Ha.
  split; [|split; [exact Hb|exact Hc]]; simpl.
  destruct (users s !! uid) as [b|] eqn:Hub; apply nonneg_insert; auto.
  pose proof (Hu uid b Hub). lra.
Qed.

Lemma process_txs_nonneg (py_int : string -> option Z) (txs : list tx) :
  forall s : state,
  (forall t m, t ∈ txs -> msg_of t = Some m -> (0 <= value m)%Z) ->
  nonneg_state s -> nonneg_state (process_txs py_int s txs).1.
Proof.
  induction txs as [|t rest IH]; intros s Ht Hs; simpl; [exact Hs|].
  pose proof (process_tx_nonneg py_int s t) as A.
  destruct (process_tx py_int s t) as [s1 ev1]. simpl in A.
  assert (Hs1 : nonneg_state s1).
  { apply A; [|exact Hs]. intros m Hm. apply (Ht t m); [left|exact Hm]. }
  specialize (IH s1). destruct (process_txs py_int s1 rest) as [s2 ev2]. simpl.
  apply IH; [|exact Hs1]. intros t' m Ht' Hm. apply (Ht t' m); [right; exact Ht'|exact Hm].
Qed.

Lemma step_nonneg (py_int : string -> option Z) (s : state) (act : action) :
  nonneg_action act -> nonneg_state s -> nonneg_state (step py_int s act).1.1.
Proof.
  intros Ha Hs. pose proof Hs as (Hu & Hb & Hc).
  destruct act as [u|u a|u a|u|txs|x]; simpl in *.
  - exact Hs.
  - unfold topup_balance.
    destruct (users s !! u) as [b|] eqn:Hub; simpl;
      (split; [|split; [exact Hb|exact Hc]]); simpl; apply nonneg_insert; auto.
    pose proof (Hu u b Hub). lra.
  - unfold place_bet. destruct (accepting_bets s); simpl; [|exact Hs].
    destruct (users s !! u) as [b|] eqn:Hub; simpl; [|exact Hs].
    destruct (Qltb b a) eqn:Hlt; simpl; [exact Hs|].
    apply Qltb_false in Hlt.
    split; [|split; [|exact Hc]]; simpl.
    + apply nonneg_insert; auto. lra.
    + intros v e. destruct (decide (u = v)) as [->|Hne].
      * rewrite lookup_insert_eq. intros [= <-]. exact Ha.
      * rewrite lookup_insert_ne by congruence. apply Hb.
  - unfold cashout. destruct (bets s !! u) as [e|] eqn:Hbe; simpl; [|exact Hs].
    destruct (users s !! u) as [b|] eqn:Hub; simpl; [|exact Hs].
    split; [|split; [|exact Hc]]; simpl.
    + apply nonneg_insert; auto.
      pose proof (Hu u b Hub). pose proof (Hb u e Hbe).
      pose proof (Qmult_le_0_compat _ _ H0 Hc). lra.
    + intros v e'. destruct (decide (u = v)) as [->|Hne].
      * rewrite lookup_delete_eq. discriminate.
      * rewrite lookup_delete_ne by congruence. apply Hb.
  - unfold check_transactions.
    pose proof (process_txs_nonneg py_int txs s Ha Hs) as A.
    destruct (process_txs py_int s txs). exact A.
  - unfold engine_step. destruct (pc s); simpl.
    + split; [exact Hu|split; [exact Hb|exact Hc]].
    + split; [exact Hu|split; [exact Hb|]]. simpl. unfold Qle; simpl; lia.
    + destruct (Qltb _ _); simpl; (split; [exact Hu|split; [exact Hb|]]); simpl;
        [|exact Hc].
      pose proof (round2_lower (current_multiplier s + (1 # 100))). lra.
    + split; [exact Hu|split; [|exact Hc]]. simpl.
      intros v e. rewrite lookup_empty. discriminate.
Qed.

(** Two top-ups into an empty table: -5 for user 7 and 0.001 for user 8. *)
Definition odd_topups_state : state :=
  (run decimal_int (init_state ∅ ∅) [ATopup 7 (-5); ATopup 8 (1 # 1000)]).1.

(** C8 (as stated): [get_balance] returns the sum of the applied deltas and
    is never negative.  A top-up of -5 is accepted and user 7's balance
    reads -5; after a top-up of 0.001 user 8's balance reads 0, not the
    sum 0.001. *)
Lemma negative_and_rounded_balances :
  (exists b, (get_balance odd_topups_state 7).1.2 = RBalance b /\ b < 0) /\
  (exists b, (get_balance odd_topups_state 8).1.2 = RBalance b /\ b == 0 /\
             ~ (b == 1 # 1000)).
Proof.
  split.
  - eexists. split; [vm_compute; reflexivity|]. vm_compute. reflexivity.
  - eexists. split; [vm_compute; reflexivity|].
    split; [vm_compute; reflexivity|]. vm_compute. discriminate.
Qed.

(** C8 (amended): with the requests handled one after another, along any
    run, for every user [v] the stored balance (0 without a row) equals its
    initial value plus the sum of the deltas the handlers applied (top-up
    +amount, reconciliation +value/1e9, bet -amount, cashout
    +amount*multiplier); [get_balance] reports it rounded to two decimals
    (0 without a row); and it stays non-negative when the state starts with
    non-negative balances and bets and every top-up amount, bet amount and
    transaction value of the run is non-negative (the handlers do not
    reject negative amounts). *)
Theorem ledger_balance_sum_of_deltas (py_int : string -> option Z)
    (acts : list action) :
  forall s : state,
  let '(s', evs) := run py_int s acts in
  (forall v, bal s' v == bal s v + delta_sum v evs) /\
  (forall v, (get_balance s' v).1.2 =
             RBalance (match users s' !! v with Some b => round2 b | None => 0 end)) /\
  (nonneg_state s -> Forall nonneg_action acts ->
   forall v b, users s' !! v = Some b -> 0 <= b).
Proof.
  assert (Hmain : forall s,
    let '(s', evs) := run py_int s acts in
    (forall v, bal s' v == bal s v + delta_sum v evs) /\
    (nonneg_state s -> Forall nonneg_action acts -> nonneg_state s')).
  { induction acts as [|a rest IH]; intros s; simpl.
    - split; [intros v; lra|]. intros Hs _. exact Hs.
    - pose proof (step_delta py_int s a) as A.
      pose proof (step_nonneg py_int s a) as B.
      destruct (step py_int s a) as [[s1 r] ev1]. simpl in A, B.
      specialize (IH s1).
      destruct (run py_int s1 rest) as [s2 ev2]. destruct IH as [C D].
      split.
      + intros v. rewrite delta_sum_app, C, A. lra.
      + intros Hs Hf. inversion Hf as [|? ? Ha Hrest]; subst.
        apply D; [apply B|]; assumption. }
  intros s. specialize (Hmain s).
  destruct (run py_int s acts) as [s' evs]. destruct Hmain as [A B].
  split; [exact A|]. split; [reflexivity|].
  intros Hs Hf. destruct (B Hs Hf) as (Hu & _ & _). exact Hu.
Qed.

Lemma ledger_balance_sum_of_deltas_witness :
  nonneg_state start_state /\ Forall nonneg_action cashout_run /\
  (forall b, users (run decimal_int start_state cashout_run).1 !! 7%Z = Some b -> 0 <= b).
Proof.
  assert (Hs : nonneg_state start_state).
  { split; [|split].
    - intros v b. unfold start_state, init_state; simpl.
      destruct (decide (v = 7%Z)) as [->|Hne].
      + rewrite lookup_singleton_eq. intros [= <-]. unfold Qle; simpl; lia.
      + rewrite lookup_singleton_ne by congruence. discriminate.
    - intros v e. simpl. rewrite lookup_empty. discriminate.
    - unfold Qle; simpl; lia. }
  assert (Hf : Forall nonneg_action cashout_run).
  { vm_compute. repeat constructor; discriminate. }
  split; [exact Hs|]. split; [exact Hf|].
  pose proof (ledger_balance_sum_of_deltas decimal_int cashout_run start_state) as H.
  destruct (run decimal_int start_state cashout_run) as [s' evs].
  destruct H as (_ & _ & H). exact (H Hs Hf 7%Z).
Defined.

(** ** Witnesses on concrete states *)

Lemma place_bet_outside_waiting_rejected_witness :
  phase first_round_crashed <> Waiting /\
  place_bet first_round_crashed 7 10 = (first_round_crashed, RError ErrBetsClosed, []).
Proof.
  assert (H : phase first_round_crashed <> Waiting) by (vm_compute; discriminate).
  split; [exact H|]. exact (place_bet_outside_waiting_rejected _ 7 10 H).
Defined.

(** The spec's scenario at the moment of the cashout: user 7 has 80 left
    after a bet of 20 and the multiplier is 1.53. *)
Definition flight_at_153 : state :=
  mkState {[7%Z := 80]} ∅ {[7%Z := mkBet 20 None]} (153 # 100) 2 true false PFlight.

Lemma cashout_pays_amount_times_multiplier_witness :
  bets flight_at_153 !! 7%Z = Some (mkBet 20 None) /\
  users flight_at_153 !! 7%Z = Some 80 /\
  users (cashout flight_at_153 7).1.1 !! 7%Z = Some (80 + 20 * (153 # 100)) /\
  80 + 20 * (153 # 100) == 11060 # 100.
Proof.
  assert (He : bets flight_at_153 !! 7%Z = Some (mkBet 20 None)) by reflexivity.
  assert (Hu : users flight_at_153 !! 7%Z = Some 80) by reflexivity.
  split; [exact He|]. split; [exact Hu|].
  pose proof (cashout_pays_amount_times_multiplier flight_at_153 7 _ _ He Hu) as H.
  simpl in H. destruct (cashout flight_at_153 7) as [[s' r] evs].
  destruct H as (_ & H & _). split; [exact H|]. reflexivity.
Defined.

Lemma place_bet_replaces_active_bet_witness :
  accepting_bets waiting_with_bet = true /\
  bets waiting_with_bet !! 7%Z = Some (mkBet 10 None) /\
  users waiting_with_bet !! 7%Z = Some 90 /\ 20 <= 90 /\
  bets (place_bet waiting_with_bet 7 20).1.1 !! 7%Z = Some (mkBet 20 None).
Proof.
  assert (H1 : accepting_bets waiting_with_bet = true) by reflexivity.
  assert (H2 : bets waiting_with_bet !! 7%Z = Some (mkBet 10 None)) by reflexivity.
  assert (H3 : users waiting_with_bet !! 7%Z = Some 90) by reflexivity.
  assert (H4 : 20 <= 90) by (unfold Qle; simpl; lia).
  split; [exact H1|]. split; [exact H2|]. split; [exact H3|]. split; [exact H4|].
  pose proof (place_bet_replaces_active_bet waiting_with_bet 7 20 90 _ H1 H2 H3 H4) as H.
  destruct (place_bet waiting_with_bet 7 20) as [[s' r] evs].
  destruct H as (_ & _ & H). exact H.
Defined.

Lemma place_bet_nonpositive_amount_witness :
  accepting_bets waiting_zero_balance = true /\ -10 <= 0 /\
  bets (place_bet waiting_zero_balance 7 (-10)).1.1 !! 7%Z = Some (mkBet (-10) None).
Proof.
  assert (H1 : accepting_bets waiting_zero_balance = true) by reflexivity.
  assert (H2 : -10 <= 0) by (unfold Qle; simpl; lia).
  split; [exact H1|]. split; [exact H2|].
  pose proof (place_bet_nonpositive_amount waiting_zero_balance 7 (-10) H1 H2) as [H _].
  simpl in H. specialize (H ltac:(unfold Qle; simpl; lia)).
  destruct (place_bet waiting_zero_balance 7 (-10)) as [[s' r] evs].
  destruct H as (_ & _ & _ & H). exact H.
Defined.

(** The spec's scenario run end to end: 100, bet 20, cash out at 1.53. *)
Example spec_scenario_cashout_153 :
  (exists b, users (run decimal_int start_state cashout_run).1 !! 7%Z = Some b /\
             b == 11060 # 100) /\
  bets (run decimal_int start_state cashout_run).1 = ∅.
Proof.
  split; [|vm_compute; reflexivity].
  eexists. split; [vm_compute; reflexivity|]. vm_compute. reflexivity.
Qed.

(** * Further properties of the code *)

(** ** The multiplier stays on the hundredths grid below the crash point *)

(** Every engine step draws from [random.uniform(1.5, 3.0)]. *)
Definition engine_sample_ok (act : action) : Prop :=
  match act with
  | AEngine x => (3 # 2) <= x /\ x <= 3
  | _ => True
  end.

Definition reachable_ok (py_int : string -> option Z) (s : state) : Prop :=
  exists us pr acts, Forall engine_sample_ok acts /\
    s = (run py_int (init_state us pr) acts).1.

Definition multiplier_inv (s : state) : Prop :=
  exists i j : Z,
    current_multiplier s == Qmake i 100 /\ crash_multiplier s == Qmake j 100 /\
    (i <= j)%Z /\ (pc s = PCrashed -> i = j).

(** [round2] maps a value on the hundredths grid to itself. *)
Lemma round2_on_grid (y : Q) (i : Z) : y == Qmake i 100 -> round2 y = Qmake i 100.
Proof.
  intros Hy. pose proof (round2_lower y) as L. pose proof (round2_upper y) as U.
  destruct (round2_hundredths y) as [k Hk]. rewrite Hk in *.
  assert (L' : Qmake i 100 - (1 # 200) <= Qmake k 100) by lra.
  assert (U' : Qmake k 100 <= Qmake i 100 + (1 # 200)) by lra.
  unfold Qle, Qminus, Qplus, Qopp in *; simpl in *.
  assert (k = i) as -> by lia. reflexivity.
Qed.

Lemma multiplier_inv_step (py_int : string -> option Z) (s : state) (act : action) :
  engine_sample_ok act -> multiplier_inv s -> multiplier_inv (step py_int s act).1.1.
Proof.
  intros Hok Hinv. destruct (is_engine act) eqn:Ea.
  - destruct act as [| | | | |x]; try discriminate. simpl in *.
    destruct Hinv as (i & j & Hi & Hj & Hij & Hc).
    unfold engine_step. destruct (pc s) eqn:Hpc; simpl.
    + exists i, j. simpl. split; [exact Hi|]. split; [exact Hj|].
      split; [exact Hij|]. discriminate.
    + destruct (round2_hundredths x) as [k Hk].
      pose proof (round2_range x (proj1 Hok) (proj2 Hok)) as [Lo Hi'].
      rewrite Hk in Lo, Hi'. unfold Qle in Lo, Hi'; simpl in Lo, Hi'.
      exists 100%Z, k. simpl. rewrite Hk.
      repeat split; try discriminate; try lia; unfold Qeq; simpl; lia.
    + destruct (Qltb _ _) eqn:Hlt; simpl.
      * apply Qltb_spec in Hlt.
        assert (Hlt' : Qmake i 100 < Qmake j 100) by lra.
        unfold Qlt in Hlt'; simpl in Hlt'.
        exists (i + 1)%Z, j. simpl.
        rewrite (round2_on_grid _ (i + 1));
          [|rewrite Hi; unfold Qeq, Qplus; simpl; lia].
        split; [reflexivity|]. split; [exact Hj|]. split; [lia|discriminate].
      * apply Qltb_false in Hlt.
        assert (Hle : Qmake j 100 <= Qmake i 100) by lra.
        unfold Qle in Hle; simpl in Hle.
        exists i, j. simpl. split; [exact Hi|]. split; [exact Hj|].
        split; [exact Hij|]. intros _. lia.
    + exists i, j. simpl. split; [exact Hi|]. split; [exact Hj|].
      split; [exact Hij|]. discriminate.
  - pose proof (handler_engine_view py_int s act Ea) as H.
    unfold engine_view in H. injection H as Hc Hk _ _ Hp.
    destruct Hinv as (i & j & Hi & Hj & Hij & Hpc).
    exists i, j. rewrite Hc, Hk, Hp. auto.
Qed.

Lemma multiplier_inv_run (py_int : string -> option Z) (acts : list action) :
  forall s, Forall engine_sample_ok acts -> multiplier_inv s ->
  multiplier_inv (run py_int s acts).1.
Proof.
  induction acts as [|a rest IH]; intros s Hf Hs; simpl; [exact Hs|].
  inversion Hf as [|? ? Ha Hrest]; subst.
  pose proof (multiplier_inv_step py_int s a Ha Hs) as H1.
  destruct (step py_int s a) as [[s1 r] ev1].
  specialize (IH s1 Hrest H1). destruct (run py_int s1 rest) as [s2 ev2]. exact IH.
Qed.

(** In every state reachable with draws of [random.uniform(1.5, 3.0)], the
    multiplier never exceeds the crash point, and from the end of the
    flight until [bets.clear()] it equals the crash point exactly; so a
    cashout in that window pays the bet times the crash multiplier. *)
Theorem multiplier_never_passes_crash_point (py_int : string -> option Z)
    (s : state) :
  reachable_ok py_int s ->
  current_multiplier s <= crash_multiplier s /\
  (pc s = PCrashed ->
   current_multiplier s == crash_multiplier s /\
   forall u e b, bets s !! u = Some e -> users s !! u = Some b ->
     exists b', users (cashout s u).1.1 !! u = Some b' /\
                b' == b + amount e * crash_multiplier s).
Proof.
  intros (us & pr & acts & Hf & ->).
  pose proof (multiplier_inv_run py_int acts (init_state us pr) Hf) as H.
  destruct H as (i & j & Hi & Hj & Hij & Hc).
  { exists 100%Z, 200%Z. simpl. repeat split; try reflexivity; [lia|discriminate]. }
  set (s := (run py_int (init_state us pr) acts).1) in *.
  assert (Hle : current_multiplier s <= crash_multiplier s).
  { rewrite Hi, Hj. unfold Qle; simpl. lia. }
  split; [exact Hle|]. intros Hp.
  assert (Heq : current_multiplier s == crash_multiplier s).
  { rewrite Hi, Hj, (Hc Hp). reflexivity. }
  split; [exact Heq|].
  intros u e b He Hu. unfold cashout. rewrite He, Hu. simpl.
  eexists. split; [apply lookup_insert_eq|]. rewrite Heq. reflexivity.
Qed.

(** A run with draws in range, stopped in the crash window with user 7's
    bet of 10 still registered. *)
Definition crash_window_run : list action :=
  [AEngine 2; APlaceBet 7 10] ++ repeat (AEngine 2) 102.

Lemma multiplier_never_passes_crash_point_witness :
  reachable_ok decimal_int (run decimal_int start_state crash_window_run).1 /\
  pc (run decimal_int start_state crash_window_run).1 = PCrashed /\
  current_multiplier (run decimal_int start_state crash_window_run).1 ==
  crash_multiplier (run decimal_int start_state crash_window_run).1.
Proof.
  assert (Hr : reachable_ok decimal_int (run decimal_int start_state crash_window_run).1).
  { exists {[7%Z := 100]}, ∅, crash_window_run. split; [|reflexivity].
    unfold crash_window_run. simpl.
    repeat constructor; unfold Qle; simpl; lia. }
  assert (Hp : pc (run decimal_int start_state crash_window_run).1 = PCrashed)
    by (vm_compute; reflexivity).
  split; [exact Hr|]. split; [exact Hp|].
  exact (proj1 (proj2 (multiplier_never_passes_crash_point decimal_int _ Hr) Hp)).
Defined.

(** ** The messages [round_loop] broadcasts *)

Inductive message :=
  | MWaiting                 (* {"event": "waiting", ...}, line 179 *)
  | MStart (crash_at : Q)    (* {"event": "start", "crash_at": ...}, line 187 *)
  | MUpdate (multiplier : Q) (* {"event": "update", "multiplier": ...}, line 192 *)
  | MCrash (at_ : Q).        (* {"event": "crash", "at": ...}, line 196 *)

(** The message a step of [round_loop] broadcasts, built from the globals
    as the step leaves them. *)
Definition engine_broadcast (sample : Q) (s : state) : list message :=
  let s' := (engine_step sample s).1.1 in
  match pc s with
  | PTop => [MWaiting]
  | PBetting => [MStart (crash_multiplier s')]
  | PFlight =>
      if Qltb (current_multiplier s) (crash_multiplier s)
      then [MUpdate (current_multiplier s')]
      else [MCrash (crash_multiplier s')]
  | PCrashed => []
  end.

(** [n] steps of [round_loop] with no request in between. *)
Fixpoint engine_run (sample : Q) (n : nat) (s : state) : state * list message :=
  match n with
  | O => (s, [])
  | S n' =>
      let '(s2, ms) := engine_run sample n' (engine_step sample s).1.1 in
      (s2, engine_broadcast sample s ++ ms)
  end.

Lemma engine_run_S (sample : Q) (n : nat) (s : state) :
  engine_run sample (S n) s =
  let '(s2, ms) := engine_run sample n (engine_step sample s).1.1 in
  (s2, engine_broadcast sample s ++ ms).
Proof. reflexivity. Qed.

(** The updates [i+1, i+2, ..., i+n] hundredths. *)
Fixpoint update_messages (i : Z) (n : nat) : list message :=
  match n with
  | O => []
  | S n' => MUpdate (Qmake (i + 1) 100) :: update_messages (i + 1) n'
  end.

Lemma round2_tick (i : Z) : round2 (Qmake i 100 + (1 # 100)) = Qmake (i + 1) 100.
Proof. apply round2_on_grid. unfold Qeq, Qplus; simpl. lia. Qed.

Lemma flight_run (sample : Q) (n : nat) :
  forall (i j : Z) (s : state),
  pc s = PFlight -> current_multiplier s = Qmake i 100 ->
  crash_multiplier s = Qmake j 100 -> (j - i)%Z = Z.of_nat n ->
  let '(s', ms) := engine_run sample (S n) s in
  ms = update_messages i n ++ [MCrash (Qmake j 100)] /\
  pc s' = PCrashed /\ round_active s' = false /\
  current_multiplier s' = Qmake j 100 /\ crash_multiplier s' = Qmake j 100 /\
  users s' = users s /\ bets s' = bets s /\ accepting_bets s' = accepting_bets s.
Proof.
  induction n as [|n IH]; intros i j s Hpc Hc Hk Hn.
  - simpl. unfold engine_broadcast, engine_step. rewrite Hpc, Hc, Hk.
    assert (Hlt : Qltb (Qmake i 100) (Qmake j 100) = false).
    { apply Qltb_false. unfold Qle; simpl. lia. }
    rewrite Hlt. simpl. assert (i = j) as -> by lia. auto 10.
  - rewrite engine_run_S.
    assert (Hlt : Qltb (Qmake i 100) (Qmake j 100) = true).
    { apply Qltb_spec. unfold Qlt; simpl. lia. }
    set (s1 := (engine_step sample s).1.1).
    assert (H1 : pc s1 = PFlight /\ current_multiplier s1 = Qmake (i + 1) 100 /\
                 crash_multiplier s1 = Qmake j 100 /\ users s1 = users s /\
                 bets s1 = bets s /\ accepting_bets s1 = accepting_bets s).
    { unfold s1, engine_step. rewrite Hpc, Hc, Hk, Hlt. simpl.
      rewrite round2_tick. auto 10. }
    destruct H1 as (P1 & C1 & K1 & U1 & B1 & A1).
    specialize (IH (i + 1)%Z j s1 P1 C1 K1 ltac:(lia)).
    destruct (engine_run sample (S n) s1) as [s' ms].
    destruct IH as (M & P & R & C & K & U & B & A).
    unfold engine_broadcast. rewrite Hpc, Hc, Hk, Hlt. fold s1.
    rewrite C1. simpl. rewrite M.
    split; [reflexivity|]. rewrite U1, B1, A1 in *. auto 10.
Qed.

Lemma engine_run_add (sample : Q) (a b : nat) :
  forall s : state,
  engine_run sample (a + b) s =
  let '(s1, m1) := engine_run sample a s in
  let '(s2, m2) := engine_run sample b s1 in (s2, m1 ++ m2).
Proof.
  induction a as [|a IH]; intros s.
  - simpl. destruct (engine_run sample b s). reflexivity.
  - rewrite Nat.add_succ_l, !engine_run_S, IH.
    destruct (engine_run sample a (engine_step sample s).1.1) as [s1 m1].
    destruct (engine_run sample b s1) as [s2 m2].
    rewrite app_assoc. reflexivity.
Qed.

(** One whole round of [round_loop] with no request in between, started at
    the loop head with a draw [x] of [random.uniform(1.5, 3.0)]: observers
    receive "waiting", then "start" carrying the crash point [c = round2 x]
    (so the crash point is public from the start), then one "update" per
    hundredth 1.01, 1.02, ..., c (that is 100 * (c - 1) ticks), then
    "crash" at [c]; the loop is back at its head with the registry empty,
    the multiplier at [c], and no balance changed (forfeited stakes are not
    refunded). *)
Theorem one_round_broadcasts (x : Q) (s : state) :
  pc s = PTop -> (3 # 2) <= x -> x <= 3 ->
  let j := Qnum (round2 x) in
  let '(s', ms) := engine_run x (Z.to_nat (j - 101) + 5) s in
  ms = [MWaiting; MStart (round2 x)] ++ update_messages 100 (Z.to_nat (j - 100)) ++
       [MCrash (round2 x)] /\
  pc s' = PTop /\ bets s' = ∅ /\ users s' = users s /\
  current_multiplier s' = round2 x /\ crash_multiplier s' = round2 x.
Proof.
  intros Hpc Hlo Hhi.
  pose proof (round2_range x Hlo Hhi) as [Lo Hi].
  destruct (round2_hundredths x) as [j Hj]. rewrite Hj in *. simpl Qnum. cbv zeta.
  unfold Qle in Lo, Hi; simpl in Lo, Hi.
  replace (Z.to_nat (j - 101) + 5)%nat with (3 + (S (Z.to_nat (j - 101)) + 1))%nat by lia.
  rewrite !engine_run_add.
  set (s3 := (engine_run x 3 s).1).
  assert (E3 : engine_run x 3 s =
                 (s3, [MWaiting; MStart (Qmake j 100); MUpdate (Qmake 101 100)]) /\
               pc s3 = PFlight /\ current_multiplier s3 = Qmake 101 100 /\
               crash_multiplier s3 = Qmake j 100 /\ users s3 = users s).
  { assert (Hlt : Qltb 1 (Qmake j 100) = true)
      by (apply Qltb_spec; unfold Qlt; simpl; lia).
    unfold s3. rewrite !engine_run_S. simpl.
    unfold engine_broadcast, engine_step. rewrite Hpc. simpl. rewrite Hj. simpl.
    rewrite Hlt. simpl. auto 10. }
  destruct E3 as (E3 & P3 & C3 & K3 & U3). rewrite E3, engine_run_add.
  pose proof (flight_run x (Z.to_nat (j - 101)) 101 j s3 P3 C3 K3 ltac:(lia)) as F.
  destruct (engine_run x (S (Z.to_nat (j - 101))) s3) as [s4 m4].
  destruct F as (M4 & P4 & R4 & C4 & K4 & U4 & B4 & A4).
  rewrite engine_run_S. simpl engine_run.
  unfold engine_broadcast, engine_step. rewrite P4. simpl.
  split.
  - rewrite M4, app_nil_r.
    replace (Z.to_nat (j - 100)) with (S (Z.to_nat (j - 101))) by lia.
    reflexivity.
  - rewrite U4, U3. auto 10.
Qed.

Lemma one_round_broadcasts_witness :
  pc start_state = PTop /\ (3 # 2) <= 2 /\ 2 <= 3 /\
  let j := Qnum (round2 2) in
  let '(s', ms) := engine_run 2 (Z.to_nat (j - 101) + 5) start_state in
  ms = [MWaiting; MStart (round2 2)] ++ update_messages 100 (Z.to_nat (j - 100)) ++
       [MCrash (round2 2)] /\
  pc s' = PTop /\ bets s' = ∅ /\ users s' = users start_state /\
  current_multiplier s' = round2 2 /\ crash_multiplier s' = round2 2.
Proof.
  assert (H1 : pc start_state = PTop) by reflexivity.
  assert (H2 : (3 # 2) <= 2) by (unfold Qle; simpl; lia).
  assert (H3 : 2 <= 3) by (unfold Qle; simpl; lia).
  split; [exact H1|]. split; [exact H2|]. split; [exact H3|].
  exact (one_round_broadcasts 2 start_state H1 H2 H3).
Defined.

(** ** How the handlers compose *)

(** After a successful cashout, a second cashout of the same user finds no
    bet: it returns the "bet not found" error and changes nothing, so a bet
    is never paid twice. *)
Theorem second_cashout_rejected (s : state) (u : Z) (e : bet_entry) (b : Q) :
  bets s !! u = Some e -> users s !! u = Some b ->
  let s1 := (cashout s u).1.1 in
  cashout s1 u = (s1, RError ErrBetNotFound, []).
Proof.
  intros He Hu s1.
  assert (Hb1 : bets s1 !! u = None).
  { unfold s1, cashout. rewrite He, Hu. simpl. apply lookup_delete_eq. }
  clearbody s1. unfold cashout. rewrite Hb1. reflexivity.
Qed.

Lemma second_cashout_rejected_witness :
  bets flight_at_153 !! 7%Z = Some (mkBet 20 None) /\
  users flight_at_153 !! 7%Z = Some 80 /\
  cashout (cashout flight_at_153 7).1.1 7 =
    ((cashout flight_at_153 7).1.1, RError ErrBetNotFound, []).
Proof.
  assert (He : bets flight_at_153 !! 7%Z = Some (mkBet 20 None)) by reflexivity.
  assert (Hu : users flight_at_153 !! 7%Z = Some 80) by reflexivity.
  split; [exact He|]. split; [exact Hu|].
  exact (second_cashout_rejected flight_at_153 7 _ _ He Hu).
Defined.

(** A user without a row in [users] cannot bet, even while bets are
    accepted: [place_bet] answers "insufficient balance" and changes
    nothing.  After a top-up of [t] (which creates the row), a bet of
    [a <= t] is accepted and leaves [t - a]. *)
Theorem bet_needs_topup_first (s : state) (u : Z) (t a : Q) :
  accepting_bets s = true -> users s !! u = None -> a <= t ->
  place_bet s u a = (s, RError ErrNoFunds, []) /\
  let s1 := (topup_balance s u t).1.1 in
  (place_bet s1 u a).1.2 = RBetAccepted /\
  users (place_bet s1 u a).1.1 !! u = Some (t - a) /\
  bets (place_bet s1 u a).1.1 !! u = Some (mkBet a None).
Proof.
  intros Hacc Hu Hat. split.
  - unfold place_bet. rewrite Hacc, Hu. reflexivity.
  - intros s1. unfold s1, topup_balance. rewrite Hu. unfold place_bet. simpl.
    rewrite Hacc, lookup_insert_eq. simpl.
    assert (Qltb t a = false) as -> by (apply Qltb_false; exact Hat).
    simpl. rewrite !lookup_insert_eq. auto.
Qed.

Lemma bet_needs_topup_first_witness :
  accepting_bets betting_state = true /\ users betting_state !! 3%Z = None /\
  10 <= 50 /\ place_bet betting_state 3 10 = (betting_state, RError ErrNoFunds, []).
Proof.
  assert (H1 : accepting_bets betting_state = true) by reflexivity.
  assert (H2 : users betting_state !! 3%Z = None) by reflexivity.
  assert (H3 : 10 <= 50) by (unfold Qle; simpl; lia).
  split; [exact H1|]. split; [exact H2|]. split; [exact H3|].
  exact (proj1 (bet_needs_topup_first betting_state 3 50 10 H1 H2 H3)).
Defined.

(** Once [round_loop] runs [bets.clear()], every cashout, of any user,
    answers "bet not found" and changes nothing, and the balances are those
    from before the clear: forfeited stakes are not refunded. *)
Theorem no_cashout_after_clear (x : Q) (s : state) :
  pc s = PCrashed ->
  let s1 := (engine_step x s).1.1 in
  users s1 = users s /\
  forall u, cashout s1 u = (s1, RError ErrBetNotFound, []).
Proof.
  intros Hpc s1. unfold s1, engine_step. rewrite Hpc. simpl.
  split; [reflexivity|]. intros u. unfold cashout. simpl.
  rewrite lookup_empty. reflexivity.
Qed.

Lemma no_cashout_after_clear_witness :
  pc first_round_crashed = PCrashed /\
  cashout (engine_step 0 first_round_crashed).1.1 7 =
    ((engine_step 0 first_round_crashed).1.1, RError ErrBetNotFound, []).
Proof.
  assert (H : pc first_round_crashed = PCrashed) by (vm_compute; reflexivity).
  split; [exact H|]. exact (proj2 (no_cashout_after_clear 0 first_round_crashed H) 7%Z).
Defined.

(** ** The skip policy of [check_transactions] *)

(** A transaction whose comment is missing or empty, does not start with
    [user_], or whose user id does not parse, and a transaction whose hash
    is already recorded, are skipped: the state is unchanged and nothing is
    credited. *)
Theorem skipped_transactions (py_int : string -> option Z) (s : state) (t : tx) :
  (memo_user py_int t = None \/ is_Some (processed s !! tx_hash t)) ->
  process_tx py_int s t = (s, []).
Proof.
  unfold memo_user, process_tx. intros H.
  destruct (msg_of t) as [m|]; [|reflexivity].
  destruct (comment m) as [c|]; [|reflexivity].
  destruct (String.eqb c ""); [reflexivity|].
  destruct (String.prefix "user_" c); simpl; [|reflexivity].
  destruct (py_int (remove_all "user_" c)); [|reflexivity].
  destruct H as [H|[x Hx]]; [discriminate|]. rewrite Hx. reflexivity.
Qed.

Lemma skipped_transactions_witness :
  memo_user decimal_int (mkTx "tx9" (Some (mkMsg (Some "deposit") 7))) = None /\
  process_tx decimal_int start_state (mkTx "tx9" (Some (mkMsg (Some "deposit") 7))) =
    (start_state, []).
Proof.
  assert (H : memo_user decimal_int (mkTx "tx9" (Some (mkMsg (Some "deposit") 7))) = None)
    by reflexivity.
  split; [exact H|]. exact (skipped_transactions decimal_int start_state _ (or_introl H)).
Defined.

(** ** Reading the user id from a comment *)

From Stdlib Require Import Ascii.

(** [s] has no letter [u]. *)
Fixpoint no_u (s : string) : bool :=
  match s with
  | EmptyString => true
  | String c s' => negb (Ascii.eqb c "u"%char) && no_u s'
  end.

(** The comment ["user_"] repeated [n] times, then [d]. *)
Fixpoint user_prefixes (n : nat) (d : string) : string :=
  match n with
  | O => d
  | S n' => String.append "user_" (user_prefixes n' d)
  end.

Lemma remove_all_no_u (d : string) : no_u d = true -> remove_all "user_" d = d.
Proof.
  unfold remove_all. induction d as [|c d IH]; intros H; [reflexivity|].
  cbn [no_u] in H. apply andb_true_iff in H as [Hc Hd].
  assert (Hne : "u"%char <> c).
  { intros <-. discriminate Hc. }
  cbn [remove_all_aux].
  assert (Hp : String.prefix "user_" (String c d) = false).
  { cbn [String.prefix]. destruct (Ascii.ascii_dec "u"%char c); [contradiction|reflexivity]. }
  rewrite Hp, IH by exact Hd. reflexivity.
Qed.

Lemma remove_all_user_prefix (d : string) :
  remove_all "user_" (String.append "user_" d) = remove_all "user_" d.
Proof.
  unfold remove_all. destruct d; reflexivity.
Qed.

Lemma remove_all_user_prefixes (n : nat) (d : string) :
  no_u d = true -> remove_all "user_" (user_prefixes n d) = d.
Proof.
  intros Hd. induction n as [|n IH]; cbn [user_prefixes].
  - exact (remove_all_no_u d Hd).
  - rewrite remove_all_user_prefix. exact IH.
Qed.

(** [comment.replace("user_", "")] removes every occurrence of the prefix:
    a deposit whose comment is ["user_"] written [n >= 1] times followed by
    [d] (with no [u] in [d]) is credited to the user [int(d)].  The user's
    balance grows by [value / 1e9], no other row changes, the hash is
    recorded for that user and the bets are untouched. *)
Theorem repeated_prefix_deposit (py_int : string -> option Z) (s : state)
    (h : string) (n : nat) (d : string) (v uid : Z) :
  (1 <= n)%nat -> no_u d = true -> py_int d = Some uid ->
  processed s !! h = None ->
  let '(s', evs) :=
    process_tx py_int s (mkTx h (Some (mkMsg (Some (user_prefixes n d)) v))) in
  bal s' uid == bal s uid + ton_amount v /\
  (forall u, u <> uid -> users s' !! u = users s !! u) /\
  processed s' !! h = Some uid /\
  bets s' = bets s /\
  evs = [EvDelta uid (ton_amount v); EvCredited h uid (ton_amount v)].
Proof.
  intros Hn Hd Hi Hp.
  destruct n as [|n]; [lia|]. cbn [user_prefixes].
  assert (Hc1 : String.eqb (String.append "user_" (user_prefixes n d)) "" = false)
    by reflexivity.
  assert (Hc2 : String.prefix "user_" (String.append "user_" (user_prefixes n d)) = true)
    by (destruct (user_prefixes n d); reflexivity).
  assert (Hc3 : py_int (remove_all "user_" (String.append "user_" (user_prefixes n d)))
                = Some uid)
    by (rewrite remove_all_user_prefix, remove_all_user_prefixes by exact Hd;
        exact Hi).
  unfold process_tx. cbn [msg_of comment value tx_hash].
  rewrite Hc1, Hc2, Hc3. cbn [negb]. rewrite Hp.
  unfold bal; cbn [users processed bets].
  destruct (users s !! uid) as [b|] eqn:E.
  - split; [rewrite lookup_insert_eq; reflexivity|].
    split; [intros u Hu; rewrite lookup_insert_ne by congruence; reflexivity|].
    split; [apply lookup_insert_eq|]. split; reflexivity.
  - split; [rewrite lookup_insert_eq; lra|].
    split; [intros u Hu; rewrite lookup_insert_ne by congruence; reflexivity|].
    split; [apply lookup_insert_eq|]. split; reflexivity.
Qed.

Lemma repeated_prefix_deposit_witness :
  (1 <= 2)%nat /\ no_u "7" = true /\ decimal_int "7" = Some 7%Z /\
  processed start_state !! "txA" = None /\
  let '(s', evs) :=
    process_tx decimal_int start_state
      (mkTx "txA" (Some (mkMsg (Some (user_prefixes 2 "7")) 3000000000))) in
  bal s' 7 == bal start_state 7 + ton_amount 3000000000 /\
  (forall u, u <> 7%Z -> users s' !! u = users start_state !! u) /\
  processed s' !! "txA" = Some 7%Z /\
  bets s' = bets start_state /\
  evs = [EvDelta 7 (ton_amount 3000000000);
         EvCredited "txA" 7 (ton_amount 3000000000)].
Proof.
  assert (Hp : processed start_state !! "txA" = None) by reflexivity.
  split; [lia|]. split; [reflexivity|]. split; [reflexivity|]. split; [exact Hp|].
  exact (repeated_prefix_deposit decimal_int start_state "txA" 2 "7" 3000000000 7
           ltac:(lia) eq_refl eq_refl Hp).
Defined.

(** ** Connections ([websocket_endpoint], lines 163-171; [broadcast],
    lines 201-206)

    [connections] maps a user id to that user's socket; sockets are named
    by numbers.  [websocket_endpoint] writes [connections[user_id]] once
    the socket is accepted (line 166) and then sleeps forever.  Its
    [except WebSocketDisconnect] branch (lines 170-171) never runs, since
    [asyncio.sleep] does not raise that exception: a client that closes
    its socket leaves the entry in [connections].  [broadcast] sends the
    message to every socket in [connections.values()]; a send that raises
    ([alive w = false], for instance on a closed socket) is swallowed.
    Each of these runs here as one atomic step.  Python visits the
    dictionary in insertion order, [map_to_list] in another order: the
    statements below are about which sockets receive a message, not about
    the order of the sends. *)
Definition socket := nat.

Inductive hub_event :=
  | Connect (u : Z) (w : socket)      (* lines 165-166 *)
  | Broadcast (m : message).          (* a call of broadcast(m) *)

Inductive hub_out :=
  | Sent (w : socket) (m : message).  (* ws.send_json(message) succeeded *)

Definition broadcast (alive : socket -> bool) (m : message)
    (connections : gmap Z socket) : list hub_out :=
  flat_map (fun kv => if alive kv.2 then [Sent kv.2 m] else [])
    (map_to_list connections).

Definition hub_step (alive : socket -> bool) (connections : gmap Z socket)
    (e : hub_event) : gmap Z socket * list hub_out :=
  match e with
  | Connect u w => (<[u := w]> connections, [])
  | Broadcast m => (connections, broadcast alive m connections)
  end.

Fixpoint hub_run (alive : socket -> bool) (connections : gmap Z socket)
    (es : list hub_event) : gmap Z socket * list hub_out :=
  match es with
  | [] => (connections, [])
  | e :: es' =>
      let '(c1, o1) := hub_step alive connections e in
      let '(c2, o2) := hub_run alive c1 es' in
      (c2, o1 ++ o2)
  end.

Lemma broadcast_sent (alive : socket -> bool) (m m' : message)
    (connections : gmap Z socket) (w : socket) :
  Sent w m' ∈ broadcast alive m connections <->
  m' = m /\ alive w = true /\ exists u, connections !! u = Some w.
Proof.
  unfold broadcast.
  rewrite list_elem_of_In, in_flat_map. split.
  - intros [[u w'] [Hin Hs]]. cbn [snd] in Hs.
    destruct (alive w') eqn:A; [|contradiction].
    destruct Hs as [Heq|[]]. injection Heq as -> ->.
    split; [reflexivity|]. split; [exact A|].
    exists u. apply elem_of_map_to_list, list_elem_of_In. exact Hin.
  - intros [-> [A [u Hu]]]. exists (u, w). split.
    + apply list_elem_of_In, elem_of_map_to_list. exact Hu.
    + cbn [snd]. rewrite A. left. reflexivity.
Qed.

Lemma hub_run_cons (alive : socket -> bool) (c : gmap Z socket) e es :
  hub_run alive c (e :: es) =
  ((hub_run alive (hub_step alive c e).1 es).1,
   (hub_step alive c e).2 ++ (hub_run alive (hub_step alive c e).1 es).2).
Proof.
  cbn [hub_run]. destruct (hub_step alive c e) as [c1 o1]. cbn [fst snd].
  destruct (hub_run alive c1 es) as [c2 o2]. reflexivity.
Qed.

(** A user who opens a second socket replaces the first in [connections]:
    from then on broadcasts go to the new socket only (if it accepts the
    send), never to the old one, which stays open. *)
Theorem reconnect_replaces_socket (alive : socket -> bool)
    (connections : gmap Z socket) (u : Z) (w1 w2 : socket) (m : message) :
  w1 <> w2 -> (forall v, v <> u -> connections !! v <> Some w1) ->
  let '(c', outs) := hub_run alive connections [Connect u w1; Connect u w2; Broadcast m] in
  c' !! u = Some w2 /\ (Sent w1 m ∉ outs) /\ (alive w2 = true -> Sent w2 m ∈ outs).
Proof.
  intros Hw Hother.
  rewrite !hub_run_cons. cbn [hub_run hub_step fst snd]. rewrite !app_nil_l, !app_nil_r.
  split; [apply lookup_insert_eq|]. split.
  - intros Hin. apply broadcast_sent in Hin as [_ [_ [v Hv]]].
    destruct (decide (v = u)) as [->|Hne].
    + rewrite lookup_insert_eq in Hv. congruence.
    + rewrite !lookup_insert_ne in Hv by congruence. exact (Hother v Hne Hv).
  - intros A. apply broadcast_sent.
    split; [reflexivity|]. split; [exact A|]. exists u. apply lookup_insert_eq.
Qed.

Definition one_listener : gmap Z socket := {[3%Z := 5%nat]}.

Lemma one_listener_other (w : socket) (v : Z) :
  w <> 5%nat -> one_listener !! v <> Some w.
Proof.
  intros Hw. unfold one_listener.
  destruct (decide (v = 3%Z)) as [->|Hne].
  - rewrite lookup_singleton_eq. congruence.
  - rewrite lookup_singleton_ne by congruence. discriminate.
Qed.

Lemma reconnect_replaces_socket_witness :
  1%nat <> 2%nat /\ (forall v, v <> 7%Z -> one_listener !! v <> Some 1%nat) /\
  let '(c', outs) :=
    hub_run (fun _ => true) one_listener
      [Connect 7 1%nat; Connect 7 2%nat; Broadcast MWaiting] in
  c' !! 7%Z = Some 2%nat /\ (Sent 1%nat MWaiting ∉ outs) /\
  ((fun _ : socket => true) 2%nat = true -> Sent 2%nat MWaiting ∈ outs).
Proof.
  assert (H1 : 1%nat <> 2%nat) by lia.
  assert (H2 : forall v, v <> 7%Z -> one_listener !! v <> Some 1%nat)
    by (intros v _; apply one_listener_other; lia).
  split; [exact H1|]. split; [exact H2|].
  exact (reconnect_replaces_socket (fun _ => true) one_listener 7 1%nat 2%nat MWaiting H1 H2).
Defined.

(** ** Order of the transactions in a reconciliation *)

(** The amount a transaction carries, [int(msg.get("value", 0)) / 1e9]. *)
Definition tx_amount (t : tx) : Q :=
  match msg_of t with Some m => ton_amount (value m) | None => 0 end.

(** The state after lines 147-158 credit [a] to [uid] for the hash [h]. *)
Definition credit (s : state) (h : string) (uid : Z) (a : Q) : state :=
  mkState (match users s !! uid with
           | Some b => <[uid := b + a]> (users s)
           | None => <[uid := a]> (users s)
           end)
          (<[h := uid]> (processed s)) (bets s)
          (current_multiplier s) (crash_multiplier s)
          (round_active s) (accepting_bets s) (pc s).

(** Two states with the same user rows, the same balances up to [==], and
    the same other fields. *)
Definition st_equiv (s1 s2 : state) : Prop :=
  (forall u, is_Some (users s1 !! u) <-> is_Some (users s2 !! u)) /\
  (forall u, bal s1 u == bal s2 u) /\
  processed s1 = processed s2 /\ bets s1 = bets s2 /\
  engine_view s1 = engine_view s2.

Lemma process_tx_norm (py_int : string -> option Z) (s : state) (t : tx) :
  (process_tx py_int s t).1 =
  match memo_user py_int t with
  | None => s
  | Some uid =>
      match processed s !! tx_hash t with
      | Some _ => s
      | None => credit s (tx_hash t) uid (tx_amount t)
      end
  end.
Proof.
  unfold process_tx, memo_user, tx_amount.
  destruct (msg_of t) as [m|]; [|reflexivity].
  destruct (comment m) as [c|]; [|reflexivity].
  destruct (String.eqb c ""); [reflexivity|].
  destruct (negb (String.prefix "user_" c)); [reflexivity|].
  destruct (py_int (remove_all "user_" c)) as [uid|]; [|reflexivity].
  destruct (processed s !! tx_hash t); reflexivity.
Qed.

Lemma credit_dom (s : state) (h : string) (uid u : Z) (a : Q) :
  is_Some (users (credit s h uid a) !! u) <-> u = uid \/ is_Some (users s !! u).
Proof.
  unfold credit; cbn [users].
  destruct (decide (u = uid)) as [->|Hne].
  - destruct (users s !! uid); rewrite lookup_insert_eq; split; eauto.
  - destruct (users s !! uid); rewrite lookup_insert_ne by congruence;
      split; [eauto| intros [?|?]; [congruence|auto] | eauto
             | intros [?|?]; [congruence|auto]].
Qed.

Lemma credit_bal_eq (s : state) (h : string) (uid : Z) (a : Q) :
  bal (credit s h uid a) uid == bal s uid + a.
Proof.
  unfold bal, credit; cbn [users].
  destruct (users s !! uid); rewrite lookup_insert_eq; lra.
Qed.

Lemma credit_bal_ne (s : state) (h : string) (uid u : Z) (a : Q) :
  u <> uid -> bal (credit s h uid a) u = bal s u.
Proof.
  intros Hne. unfold bal, credit; cbn [users].
  destruct (users s !! uid); rewrite lookup_insert_ne by congruence; reflexivity.
Qed.

Lemma st_equiv_refl (s : state) : st_equiv s s.
Proof. repeat split; auto; reflexivity. Qed.

Lemma st_equiv_trans (s1 s2 s3 : state) :
  st_equiv s1 s2 -> st_equiv s2 s3 -> st_equiv s1 s3.
Proof.
  intros (D1 & B1 & P1 & T1 & E1) (D2 & B2 & P2 & T2 & E2).
  split; [intros u; rewrite D1; apply D2|].
  split; [intros u; rewrite (B1 u); apply B2|].
  split; [congruence|]. split; congruence.
Qed.

Lemma credit_proper (s1 s2 : state) (h : string) (uid : Z) (a : Q) :
  st_equiv s1 s2 -> st_equiv (credit s1 h uid a) (credit s2 h uid a).
Proof.
  intros (D & B & P & T & E).
  split; [intros u; rewrite !credit_dom, D; reflexivity|].
  split.
  - intros u. destruct (decide (u = uid)) as [->|Hne].
    + rewrite !credit_bal_eq, (B uid). reflexivity.
    + rewrite !credit_bal_ne by exact Hne. apply B.
  - unfold credit, engine_view in *; cbn [processed bets current_multiplier
      crash_multiplier round_active accepting_bets pc].
    rewrite P, T. split; [reflexivity|]. split; [reflexivity|]. exact E.
Qed.

Lemma process_tx_proper (py_int : string -> option Z) (s1 s2 : state) (t : tx) :
  st_equiv s1 s2 -> st_equiv (process_tx py_int s1 t).1 (process_tx py_int s2 t).1.
Proof.
  intros H. rewrite !process_tx_norm.
  destruct (memo_user py_int t) as [uid|]; [|exact H].
  assert (P : processed s1 = processed s2) by apply H.
  rewrite P. destruct (processed s2 !! tx_hash t); [exact H|].
  apply credit_proper, H.
Qed.

Lemma process_txs_cons_fst (py_int : string -> option Z) (s : state) (t : tx)
    (rest : list tx) :
  (process_txs py_int s (t :: rest)).1 =
  (process_txs py_int (process_tx py_int s t).1 rest).1.
Proof.
  cbn [process_txs]. destruct (process_tx py_int s t) as [s1 ev1]. cbn [fst].
  destruct (process_txs py_int s1 rest) as [s2 ev2]. reflexivity.
Qed.

Lemma process_txs_proper (py_int : string -> option Z) (txs : list tx) :
  forall s1 s2, st_equiv s1 s2 ->
  st_equiv (process_txs py_int s1 txs).1 (process_txs py_int s2 txs).1.
Proof.
  induction txs as [|t rest IH]; intros s1 s2 H; [exact H|].
  rewrite !process_txs_cons_fst. apply IH, process_tx_proper, H.
Qed.

Lemma credit_comm (s : state) (h1 h2 : string) (u1 u2 : Z) (a1 a2 : Q) :
  h1 <> h2 ->
  st_equiv (credit (credit s h1 u1 a1) h2 u2 a2) (credit (credit s h2 u2 a2) h1 u1 a1).
Proof.
  intros Hh.
  split; [intros u; rewrite !credit_dom; tauto|].
  split.
  - intros u.
    destruct (decide (u = u1)) as [->|N1]; destruct (decide (u1 = u2)) as [<-|N2].
    + rewrite !credit_bal_eq. lra.
    + rewrite credit_bal_ne, credit_bal_eq, credit_bal_eq, credit_bal_ne by congruence.
      reflexivity.
    + rewrite credit_bal_ne, credit_bal_ne, credit_bal_ne, credit_bal_ne by congruence.
      reflexivity.
    + destruct (decide (u = u2)) as [->|N3].
      * rewrite credit_bal_eq, credit_bal_ne, credit_bal_ne, credit_bal_eq by congruence.
        reflexivity.
      * rewrite !credit_bal_ne by congruence. reflexivity.
  - unfold credit, engine_view; cbn [processed bets current_multiplier
      crash_multiplier round_active accepting_bets pc].
    split; [apply insert_insert_ne; congruence|]. split; reflexivity.
Qed.

Lemma credit_processed_ne (s : state) (h h' : string) (uid : Z) (a : Q) :
  h' <> h -> processed (credit s h uid a) !! h' = processed s !! h'.
Proof. intros Hne. unfold credit; cbn [processed]. apply lookup_insert_ne. congruence. Qed.

Lemma process_tx_swap (py_int : string -> option Z) (s : state) (t1 t2 : tx) :
  tx_hash t1 <> tx_hash t2 ->
  st_equiv (process_tx py_int (process_tx py_int s t1).1 t2).1
           (process_tx py_int (process_tx py_int s t2).1 t1).1.
Proof.
  intros Hh. rewrite !process_tx_norm.
  destruct (memo_user py_int t1) as [u1|] eqn:M1;
  destruct (memo_user py_int t2) as [u2|] eqn:M2;
  rewrite ?process_tx_norm, ?M1, ?M2; try apply st_equiv_refl.
  - destruct (processed s !! tx_hash t1) as [p1|] eqn:P1;
    destruct (processed s !! tx_hash t2) as [p2|] eqn:P2;
    rewrite ?credit_processed_ne by congruence; rewrite ?P1, ?P2;
    try apply st_equiv_refl.
    apply credit_comm. exact Hh.
Qed.

(** When the transactions of one reconciliation have pairwise distinct
    hashes, the order in which [tonapi] lists them does not matter: any
    reordering leaves the same user rows, the same balances (up to the
    order of the additions), the same processed hashes and the same game
    state. *)
Theorem reconciliation_order_independent (py_int : string -> option Z)
    (s : state) (txs txs' : list tx) :
  NoDup (map tx_hash txs) -> Permutation txs txs' ->
  st_equiv (check_transactions py_int s txs).1.1
           (check_transactions py_int s txs').1.1.
Proof.
  intros Hnd Hp.
  assert (Hc : forall l, (check_transactions py_int s l).1.1 = (process_txs py_int s l).1).
  { intros l. unfold check_transactions. destruct (process_txs py_int s l). reflexivity. }
  rewrite !Hc. clear Hc. revert s.
  induction Hp as [|t l l' Hp IH|t1 t2 l|l l' l'' Hp1 IH1 Hp2 IH2]; intros s.
  - apply st_equiv_refl.
  - rewrite !process_txs_cons_fst. apply IH. cbn [map] in Hnd.
    apply NoDup_cons in Hnd. apply Hnd.
  - rewrite !process_txs_cons_fst. apply process_txs_proper.
    cbn [map] in Hnd. apply NoDup_cons in Hnd as [Hn _].
    apply process_tx_swap. intros Heq. apply Hn. rewrite Heq. left.
  - apply (st_equiv_trans _ (process_txs py_int s l').1).
    + apply IH1. exact Hnd.
    + apply IH2. rewrite <- (Permutation_map tx_hash Hp1). exact Hnd.
Qed.

Definition two_deposits : list tx :=
  [mkTx "txA" (Some (mkMsg (Some "user_7") 1500000000));
   mkTx "txB" (Some (mkMsg (Some "user_user_7") 250000000))].

Lemma reconciliation_order_independent_witness :
  NoDup (map tx_hash two_deposits) /\ Permutation two_deposits (rev two_deposits) /\
  st_equiv (check_transactions decimal_int start_state two_deposits).1.1
           (check_transactions decimal_int start_state (rev two_deposits)).1.1.
Proof.
  assert (Hn : NoDup (map tx_hash two_deposits)).
  { cbn. apply NoDup_cons. split; [rewrite list_elem_of_singleton; discriminate|].
    apply NoDup_singleton. }
  assert (Hp : Permutation two_deposits (rev two_deposits)) by apply perm_swap.
  split; [exact Hn|]. split; [exact Hp|].
  exact (reconciliation_order_independent decimal_int start_state _ _ Hn Hp).
Defined.

(** ** Failed requests and the [User not found] branch *)

(** A request that ends in an error response leaves the whole state as it
    was: the handlers test everything before their first write. *)
Theorem errors_change_nothing (py_int : string -> option Z) (s s' : state)
    (act : action) (e : error_kind) (evs : list event) :
  step py_int s act = (s', RError e, evs) -> s' = s /\ evs = [].
Proof.
  destruct act as [u|u a|u a|u|txs|x]; cbn [step].
  - unfold get_balance. intros H. discriminate H.
  - unfold topup_balance. destruct (users s !! u); intros H; discriminate H.
  - unfold place_bet. destruct (negb (accepting_bets s)).
    + intros H. injection H as <- _ <-. split; reflexivity.
    + destruct (users s !! u) as [b|].
      * destruct (Qltb b a); intros H; [injection H as <- _ <-; split; reflexivity|].
        discriminate H.
      * intros H. injection H as <- _ <-. split; reflexivity.
  - unfold cashout. destruct (bets s !! u) as [be|].
    + destruct (users s !! u) as [b|]; intros H; [discriminate H|].
      injection H as <- _ <-. split; reflexivity.
    + intros H. injection H as <- _ <-. split; reflexivity.
  - unfold check_transactions. destruct (process_txs py_int s txs).
    intros H. discriminate H.
  - unfold engine_step. destruct (pc s); [| |destruct (Qltb _ _)|];
      intros H; discriminate H.
Qed.

(** Every user holding a bet has a row in [users]. *)
Definition bets_have_rows (s : state) : Prop :=
  forall u, is_Some (bets s !! u) -> is_Some (users s !! u).

Lemma process_txs_rows (py_int : string -> option Z) (txs : list tx) :
  forall (s : state) (u : Z),
  is_Some (users s !! u) -> is_Some (users (process_txs py_int s txs).1 !! u).
Proof.
  induction txs as [|t rest IH]; intros s u H; [exact H|].
  rewrite process_txs_cons_fst. apply IH.
  rewrite process_tx_norm.
  destruct (memo_user py_int t); [|exact H].
  destruct (processed s !! tx_hash t); [exact H|].
  apply credit_dom. right. exact H.
Qed.

Lemma bets_have_rows_step (py_int : string -> option Z) (s : state) (act : action) :
  bets_have_rows s -> bets_have_rows (step py_int s act).1.1.
Proof.
  intros Hw. destruct act as [u|u a|u a|u|txs|x]; cbn [step].
  - exact Hw.
  - unfold topup_balance. intros v Hv.
    destruct (users s !! u); cbn in *; apply lookup_insert_is_Some'; right; apply Hw, Hv.
  - unfold place_bet. destruct (negb (accepting_bets s)); [exact Hw|].
    destruct (users s !! u) as [b|]; [|exact Hw].
    destruct (Qltb b a); [exact Hw|].
    intros v Hv. cbn in *. apply lookup_insert_is_Some'.
    apply lookup_insert_is_Some' in Hv as [->|Hv]; [left; reflexivity|].
    right. apply Hw, Hv.
  - unfold cashout. destruct (bets s !! u) as [be|]; [|exact Hw].
    destruct (users s !! u) as [b|]; [|exact Hw].
    intros v Hv. cbn in *. apply lookup_insert_is_Some'.
    apply lookup_delete_is_Some in Hv as [_ Hv]. right. apply Hw, Hv.
  - unfold check_transactions.
    pose proof (proj2 (process_txs_fields py_int txs s)) as Hb.
    pose proof (process_txs_rows py_int txs s) as Hr.
    destruct (process_txs py_int s txs) as [s1 ev1]. cbn in *.
    intros v Hv. apply Hr, Hw. rewrite <- Hb. exact Hv.
  - unfold engine_step. destruct (pc s); [| |destruct (Qltb _ _)|];
      unfold bets_have_rows in *; cbn [bets users fst]; try exact Hw.
    intros v Hv. rewrite lookup_empty in Hv. inversion Hv; discriminate.
Qed.

Lemma bets_have_rows_run (py_int : string -> option Z) (acts : list action) :
  forall s, bets_have_rows s -> bets_have_rows (run py_int s acts).1.
Proof.
  induction acts as [|act rest IH]; intros s Hw; [exact Hw|].
  cbn [run].
  pose proof (bets_have_rows_step py_int s act Hw) as H1.
  destruct (step py_int s act) as [[s1 r1] ev1]. cbn in H1.
  specialize (IH s1 H1). destruct (run py_int s1 rest) as [s2 ev2]. exact IH.
Qed.

(** The [User not found] branch of [cashout] is dead code: in every state
    the server can reach, a user who holds a bet has a balance row (rows
    are never deleted, and [place_bet] only records a bet for an existing
    row), so a cashout never answers [User not found]. *)
Theorem cashout_user_not_found_unreachable (py_int : string -> option Z)
    (s : state) (u : Z) :
  reachable py_int s -> (cashout s u).1.2 <> RError ErrUserNotFound.
Proof.
  intros (us & pr & acts & ->).
  assert (Hw : bets_have_rows (run py_int (init_state us pr) acts).1).
  { apply bets_have_rows_run. intros v Hv. unfold init_state in Hv; cbn [bets] in Hv.
    rewrite lookup_empty in Hv. inversion Hv; discriminate. }
  unfold cashout.
  destruct (bets (run py_int (init_state us pr) acts).1 !! u) as [be|] eqn:Eb;
    [|discriminate].
  destruct (Hw u ltac:(rewrite Eb; eexists; reflexivity)) as [b Eu].
  rewrite Eu. discriminate.
Qed.

Lemma errors_change_nothing_witness :
  step decimal_int first_round_bet (APlaceBet 8 5) =
    (first_round_bet, RError ErrNoFunds, []) /\
  first_round_bet = first_round_bet /\ @nil event = [].
Proof.
  assert (H : step decimal_int first_round_bet (APlaceBet 8 5) =
                (first_round_bet, RError ErrNoFunds, [])) by reflexivity.
  split; [exact H|].
  exact (errors_change_nothing decimal_int first_round_bet first_round_bet
           (APlaceBet 8 5) ErrNoFunds [] H).
Defined.

Lemma cashout_user_not_found_unreachable_witness :
  reachable decimal_int first_round_bet /\
  (cashout first_round_bet 7).1.2 <> RError ErrUserNotFound.
Proof.
  assert (Hr : reachable decimal_int first_round_bet)
    by (exists {[7%Z := 100]}, ∅, [AEngine 0; APlaceBet 7 10]; reflexivity).
  split; [exact Hr|].
  exact (cashout_user_not_found_unreachable decimal_int first_round_bet 7 Hr).
Defined.
